(** * Order fulfilment workflow: stock ledger, order life cycle, payment
    retries and the order projection.

    Shallow embedding of [orders.service.ts], of the products service and of
    the response interfaces.  The relational store is a record of tables;
    every service method is a computation that threads the store and may
    throw.  A throw keeps the writes made before it: the services open no
    transaction. *)

From Stdlib Require Import PrimFloat.
From Stdlib Require Import ZArith String List Lia.
From stdpp Require Import gmap strings list fin_maps pretty.

Local Open Scope Z_scope.

(** ** Entities

    Quantities and stock are integers.  Prices and totals are JavaScript
    numbers: binary64 floating-point values, added and multiplied with
    rounding to nearest as the program does, on which [Number(x)] is the
    identity.  Dates are time stamps. *)

(** The number that holds an integer: exact up to 2^53, as in JavaScript. *)
Fixpoint numberOfPositive (p : positive) : float :=
  match p with
  | xH => 1%float
  | xO p => PrimFloat.mul 2%float (numberOfPositive p)
  | xI p => PrimFloat.add (PrimFloat.mul 2%float (numberOfPositive p)) 1%float
  end.

Definition numberOfZ (z : Z) : float :=
  match z with
  | Z0 => 0%float
  | Zpos p => numberOfPositive p
  | Zneg p => PrimFloat.opp (numberOfPositive p)
  end.

Inductive OrderStatus := PENDING | CONFIRMED | CANCELLED.

#[global] Instance OrderStatus_eq_dec : EqDecision OrderStatus.
Proof. solve_decision. Defined.

Record Category := mkCategory {
  category_id : Z;
  category_name : string }.

Record User := mkUser {
  user_id : Z;
  user_email : string;
  user_name : string;
  user_isActive : bool;
  user_createdAt : Z }.

(** A product with its [category] relation loaded. *)
Record Product := mkProduct {
  product_id : Z;
  product_name : string;
  product_price : float;
  product_stock : Z;
  product_updatedAt : Z;
  product_categoryId : option Z;
  product_category : option Category }.

(** An order item with its [product] relation loaded ([None] when the row it
    points to is gone). *)
Record OrderItem := mkOrderItem {
  item_id : Z;
  item_orderId : Z;
  item_productId : Z;
  item_quantity : Z;
  item_price : float;
  item_product : option Product }.

(** An order with the relations [user], [items], [items.product] loaded. *)
Record Order := mkOrder {
  order_id : Z;
  order_userId : Z;
  order_status : OrderStatus;
  order_total : float;
  order_createdAt : Z;
  order_user : option User;
  order_items : list OrderItem }.

(** ** Tables

    A row is an entity's own columns; the primary key is the key of the
    table.  Order items are kept in insertion order, which is the order a
    relation is loaded in. *)

Record ProductRow := mkProductRow {
  row_name : string;
  row_price : float;
  row_stock : Z;
  row_updatedAt : Z;
  row_categoryId : option Z }.

Record OrderRow := mkOrderRow {
  orow_userId : Z;
  orow_status : OrderStatus;
  orow_total : float;
  orow_createdAt : Z }.

Record OrderItemRow := mkOrderItemRow {
  irow_id : Z;
  irow_orderId : Z;
  irow_productId : Z;
  irow_quantity : Z;
  irow_price : float }.

Record Store := mkStore {
  users : gmap Z User;
  categories : gmap Z Category;
  products : gmap Z ProductRow;
  orders : gmap Z OrderRow;
  orderItems : list OrderItemRow;
  nextOrderId : Z;
  nextOrderItemId : Z;
  clock : Z }.

Definition set_products (f : gmap Z ProductRow -> gmap Z ProductRow) (st : Store) : Store :=
  mkStore (users st) (categories st) (f (products st)) (orders st)
          (orderItems st) (nextOrderId st) (nextOrderItemId st) (clock st).

Definition set_orders (f : gmap Z OrderRow -> gmap Z OrderRow) (st : Store) : Store :=
  mkStore (users st) (categories st) (products st) (f (orders st))
          (orderItems st) (nextOrderId st) (nextOrderItemId st) (clock st).

Definition set_stock (q : Z) (r : ProductRow) : ProductRow :=
  mkProductRow (row_name r) (row_price r) q (row_updatedAt r) (row_categoryId r).

Definition set_updatedAt (t : Z) (r : ProductRow) : ProductRow :=
  mkProductRow (row_name r) (row_price r) (row_stock r) t (row_categoryId r).

Definition set_row_price (p : float) (r : ProductRow) : ProductRow :=
  mkProductRow (row_name r) p (row_stock r) (row_updatedAt r) (row_categoryId r).

(** ** Exceptions and the service monad *)

Inductive Exception :=
| NotFoundException (msg : string)
| BadRequestException (msg : string)
| GatewayError (msg : string)
| ThrownUndefined
| TypeError
| QueryFailedError.

Inductive Result (A : Type) :=
| Ok (a : A)
| Err (e : Exception).
Arguments Ok {A} a.
Arguments Err {A} e.

Definition M (A : Type) : Type := Store -> Store * Result A.

Definition ret {A} (a : A) : M A := fun st => (st, Ok a).
Definition throw {A} (e : Exception) : M A := fun st => (st, Err e).
Definition bind {A B} (m : M A) (k : A -> M B) : M B := fun st =>
  match m st with
  | (st', Ok a) => k a st'
  | (st', Err e) => (st', Err e)
  end.

Notation "'let!' x ':=' m 'in' k" := (bind m (fun x => k))
  (at level 10, x pattern, m at level 100, k at level 200).
Notation "m ';;' k" := (bind m (fun _ => k))
  (at level 100, k at level 200, right associativity).

Definition isOk {A} (r : Result A) : bool :=
  match r with Ok _ => true | Err _ => false end.

(** The stock of a product as the table has it. *)
Definition stockOf (st : Store) (id : Z) : option Z :=
  row_stock <$> products st !! id.

(** ** Category entities

    A category row has a name and the id of its parent, if any.  A loaded
    category carries the relations a query asked for: a [parent] that is
    [None] was not loaded or does not exist, and [children] is empty when it
    was not loaded or there are none (the tree builder treats the two
    alike). *)

Record CategoryRow := mkCategoryRow {
  crow_name : string;
  crow_parentId : option Z }.

Unset Elimination Schemes.

Inductive CategoryEntity :=
| mkCategoryEntity (id : Z) (name : string) (parentId : option Z)
                   (parent : option CategoryEntity) (children : list CategoryEntity).

Inductive CategoryTree :=
| mkCategoryTree (id : Z) (name : string)
                 (parent : option CategoryTree) (children : list CategoryTree).

Set Elimination Schemes.

Definition tree_children (t : CategoryTree) : list CategoryTree :=
  match t with mkCategoryTree _ _ _ children => children end.

Definition tree_parent (t : CategoryTree) : option CategoryTree :=
  match t with mkCategoryTree _ _ parent _ => parent end.

(** [if (category.parentId)]: neither null nor 0. *)
Definition truthyId (parentId : option Z) : bool :=
  match parentId with
  | Some k => negb (k =? 0)
  | None => false
  end.

(** ** The batch result of [products.interface.ts] *)

Module ProductsInterface.

Record BatchProductError := mkBatchProductError {
  productId : Z;
  error : string }.

Record BatchProcessingResult := mkBatchProcessingResult {
  success : bool;
  processed : nat;
  failed : nat;
  errors : list BatchProductError }.

End ProductsInterface.

(** ** The products service *)

Module ProductsService.

Definition loadProduct (st : Store) (id : Z) (r : ProductRow) : Product :=
  mkProduct id (row_name r) (row_price r) (row_stock r) (row_updatedAt r)
            (row_categoryId r)
            (row_categoryId r ≫= fun c => categories st !! c).

Definition rowOf (p : Product) : ProductRow :=
  mkProductRow (product_name p) (product_price p) (product_stock p)
               (product_updatedAt p) (product_categoryId p).

Definition findOne (id : Z) : M Product := fun st =>
  match products st !! id with
  | Some r => (st, Ok (loadProduct st id r))
  | None => (st, Err (NotFoundException ("Product #" +:+ pretty id +:+ " not found")))
  end.

(** [productsRepository.save] of a loaded product: writes its columns. *)
Definition save (p : Product) : M Product := fun st =>
  (set_products (insert (product_id p) (rowOf p)) st, Ok p).

Definition withStock (q : Z) (p : Product) : Product :=
  mkProduct (product_id p) (product_name p) (product_price p) q
            (product_updatedAt p) (product_categoryId p) (product_category p).

Definition updateStock (id quantity : Z) : M Product :=
  let! product := findOne id in
  save (withStock quantity product).

(** One [UPDATE product SET ... WHERE ...] statement: every row the
    condition holds of is rewritten, and the number of such rows is
    reported as [affected]. *)
Definition executeUpdate (cond : Z -> ProductRow -> bool)
           (set : ProductRow -> ProductRow) : M nat := fun st =>
  (set_products (map_imap (fun k r => Some (if cond k r then set r else r))) st,
   Ok (size (filter (fun kr => cond kr.1 kr.2 = true) (products st)))).

Definition decrementStock (id quantity : Z) : M unit :=
  let! affected :=
    executeUpdate (fun k r => bool_decide (k = id) && (quantity <=? row_stock r))
                  (fun r => set_stock (row_stock r - quantity) r) in
  if Nat.eqb affected 0
  then throw (BadRequestException "Not enough stock available")
  else ret tt.

(** [SELECT ... WHERE product.id IN (:...ids)]: the rows found, by id. *)
Definition existingProducts (productIds : list Z) (st : Store) : gmap Z ProductRow :=
  filter (fun kr => kr.1 ∈ productIds) (products st).

Definition existingIds (productIds : list Z) (st : Store) : gset Z :=
  dom (existingProducts productIds st).

Definition missingIds (productIds : list Z) (st : Store) : list Z :=
  filter (fun id => id ∉ existingIds productIds st) productIds.

Definition notFound (id : Z) : ProductsInterface.BatchProductError :=
  ProductsInterface.mkBatchProductError id ("Product #" +:+ pretty id +:+ " not found").

Definition processProductBatch (productIds : list Z)
  : M ProductsInterface.BatchProcessingResult :=
  if Nat.eqb (length productIds) 0
  then ret (ProductsInterface.mkBatchProcessingResult true 0 0 [])
  else fun st =>
    let existing := existingIds productIds st in
    let errors := notFound <$> missingIds productIds st in
    let update : M nat :=
      if bool_decide (0 < size existing)%nat
      then executeUpdate
             (fun k _ => bool_decide (k ∈ existing)) (set_updatedAt (clock st))
      else ret 0%nat in
    (let! processed := update in
     ret (ProductsInterface.mkBatchProcessingResult
            (Nat.eqb (length errors) 0) processed (length errors) errors)) st.

(** [find({ relations: ['category'] })]: every row, in table order. *)
Definition findAll : M (list Product) := fun st =>
  (st, Ok ((fun kr => loadProduct st kr.1 kr.2) <$> map_to_list (products st))).

(** An order item refers to the product: the foreign key of the
    [items.product] relation. *)
Definition referenced (id : Z) (st : Store) : bool :=
  bool_decide (Exists (fun row => irow_productId row = id) (orderItems st)).

(** [productsRepository.remove]: the [DELETE] is refused with a
    [QueryFailedError] while an order item refers to the product. *)
Definition remove (id : Z) : M unit :=
  let! product := findOne id in
  fun st =>
    if referenced (product_id product) st
    then (st, Err QueryFailedError)
    else (set_products (delete (product_id product)) st, Ok tt).

(** A row as an entity with no relation loaded. *)
Definition bareCategory (id : Z) (r : CategoryRow) : CategoryEntity :=
  mkCategoryEntity id (crow_name r) (crow_parentId r) None [].

(** [findCategory]: the category with its [parent] and its [children], each
    of them without relations of its own. *)
Definition findCategory (id : Z) (table : gmap Z CategoryRow) : Result CategoryEntity :=
  match table !! id with
  | Some r =>
    Ok (mkCategoryEntity id (crow_name r) (crow_parentId r)
          (crow_parentId r ≫= fun p => bareCategory p <$> table !! p)
          ((fun kr => bareCategory kr.1 kr.2)
             <$> map_to_list (filter (fun kr => crow_parentId kr.2 = Some id) table)))
  | None => Err (NotFoundException ("Category #" +:+ pretty id +:+ " not found"))
  end.

(** [buildCategoryTree]; reading [category.id] of a relation that is not
    there throws a [TypeError]. *)
Fixpoint buildCategoryTree (category : CategoryEntity) : Result CategoryTree :=
  match category with
  | mkCategoryEntity id name parentId parent children =>
    let parentTree : Result (option CategoryTree) :=
      if truthyId parentId
      then match parent with
           | Some p => match buildCategoryTree p with
                       | Ok t => Ok (Some t)
                       | Err e => Err e
                       end
           | None => Err TypeError
           end
      else Ok None in
    match parentTree with
    | Err e => Err e
    | Ok parentTree =>
      match (fix mapChildren (l : list CategoryEntity) : Result (list CategoryTree) :=
               match l with
               | [] => Ok []
               | child :: rest =>
                 match buildCategoryTree child with
                 | Ok t => match mapChildren rest with
                           | Ok ts => Ok (t :: ts)
                           | Err e => Err e
                           end
                 | Err e => Err e
                 end
               end) children with
      | Ok childTrees => Ok (mkCategoryTree id name parentTree childTrees)
      | Err e => Err e
      end
    end
  end.

Definition getCategoryTree (categoryId : Z) (table : gmap Z CategoryRow)
  : Result CategoryTree :=
  match findCategory categoryId table with
  | Ok category => buildCategoryTree category
  | Err e => Err e
  end.

End ProductsService.

(** ** The users service *)

(** Modelled from the spec: [users.service.ts] is not among the sources;
    [getUser(id) -> User | UserNotFound]. *)
Module UsersService.

Definition findOne (id : Z) : M User := fun st =>
  match users st !! id with
  | Some u => (st, Ok u)
  | None => (st, Err (NotFoundException ("User #" +:+ pretty id +:+ " not found")))
  end.

End UsersService.

(** ** The payment gateway *)

Record PaymentResult := mkPaymentResult {
  success : bool;
  transactionId : string }.

Inductive GatewayOutcome :=
| Returns (r : PaymentResult)
| Throws (e : Exception).

(** [paymentService.processPayment]: [unavailable] is the draw
    [Math.random() < 0.1] and [now] is [Date.now()]; the 100 ms the call
    itself takes are inside the call. *)
Definition paymentService (unavailable : bool) (now : Z) : GatewayOutcome :=
  if unavailable
  then Throws (GatewayError "Payment service unavailable")
  else Returns (mkPaymentResult true ("TXN-" +:+ pretty now)).

(** What a run of the retry loop does besides writing to the store. *)
Inductive Event :=
| Charge (orderId : Z) (amount : float)
| Sleep (ms : Z).

(** ** The orders service *)

Record OrderItemDto := mkOrderItemDto {
  dto_productId : Z;
  dto_quantity : Z }.

Record CreateOrderDto := mkCreateOrderDto {
  dto_userId : Z;
  dto_items : list OrderItemDto }.

(** [Σ price × quantity] over loaded items: the products and the sum are
    those of the program's numbers, taken in list order from 0. *)
Definition itemsTotal (items : list OrderItem) : float :=
  fold_left (fun acc it => PrimFloat.add acc (PrimFloat.mul (item_price it) (numberOfZ (item_quantity it))))
            items 0%float.

Module OrdersService.

Definition maxRetries : nat := 3.

(** [items.product] is loaded without its category unless the query asks
    for [items.product.category]. *)
Definition loadProduct (withCategory : bool) (st : Store) (id : Z) : option Product :=
  (fun r =>
     let p := ProductsService.loadProduct st id r in
     if withCategory then p
     else mkProduct id (product_name p) (product_price p) (product_stock p)
                    (product_updatedAt p) (product_categoryId p) None)
  <$> products st !! id.

Definition loadItem (withCategory : bool) (st : Store) (r : OrderItemRow) : OrderItem :=
  mkOrderItem (irow_id r) (irow_orderId r) (irow_productId r) (irow_quantity r)
              (irow_price r) (loadProduct withCategory st (irow_productId r)).

Definition loadOrder (withCategory : bool) (st : Store) (id : Z) (r : OrderRow) : Order :=
  mkOrder id (orow_userId r) (orow_status r) (orow_total r) (orow_createdAt r)
          (users st !! orow_userId r)
          (loadItem withCategory st
             <$> filter (fun i => irow_orderId i = id) (orderItems st)).

Definition findOne (id : Z) : M Order := fun st =>
  match orders st !! id with
  | Some r => (st, Ok (loadOrder false st id r))
  | None => (st, Err (NotFoundException ("Order #" +:+ pretty id +:+ " not found")))
  end.

Definition rowOf (o : Order) : OrderRow :=
  mkOrderRow (order_userId o) (order_status o) (order_total o) (order_createdAt o).

(** [ordersRepository.save] of an order that has an id: writes its own
    columns (no relation cascades). *)
Definition save (o : Order) : M Order := fun st =>
  (set_orders (insert (order_id o) (rowOf o)) st, Ok o).

(** Modelled from the spec: [order.entity.ts] is not among the sources; a
    new order gets the next id, the creation date of the clock and, as its
    column default, total 0. *)
Definition saveNew (userId : Z) (status : OrderStatus) : M Order := fun st =>
  let o := mkOrder (nextOrderId st) userId status 0%float (clock st) None [] in
  (mkStore (users st) (categories st) (products st)
           (<[nextOrderId st := rowOf o]> (orders st))
           (orderItems st) (nextOrderId st + 1) (nextOrderItemId st) (clock st),
   Ok o).

(** [orderItemsRepository.save] of a new item: appends a row with the next
    id. *)
Definition saveItem (orderId productId quantity : Z) (price : float) : M unit := fun st =>
  (mkStore (users st) (categories st) (products st) (orders st)
           (orderItems st ++ [mkOrderItemRow (nextOrderItemId st) orderId productId quantity price])
           (nextOrderId st) (nextOrderItemId st + 1) (clock st),
   Ok tt).

Definition withStatus (s : OrderStatus) (o : Order) : Order :=
  mkOrder (order_id o) (order_userId o) s (order_total o) (order_createdAt o)
          (order_user o) (order_items o).

Definition withTotal (t : float) (o : Order) : Order :=
  mkOrder (order_id o) (order_userId o) (order_status o) t (order_createdAt o)
          (order_user o) (order_items o).

(** The body of [for (const itemDto of createOrderDto.items)], with the
    running [total]. *)
Fixpoint createItems (orderId : Z) (items : list OrderItemDto) (total : float) : M float :=
  match items with
  | [] => ret total
  | itemDto :: rest =>
    let! product := ProductsService.findOne (dto_productId itemDto) in
    if product_stock product <? dto_quantity itemDto
    then throw (BadRequestException ("Not enough stock for " +:+ product_name product))
    else
      saveItem orderId (product_id product) (dto_quantity itemDto) (product_price product) ;;
      let total := PrimFloat.add total (PrimFloat.mul (product_price product) (numberOfZ (dto_quantity itemDto))) in
      ProductsService.decrementStock (product_id product) (dto_quantity itemDto) ;;
      createItems orderId rest total
  end.

Definition create (createOrderDto : CreateOrderDto) : M Order :=
  let! user := UsersService.findOne (dto_userId createOrderDto) in
  let! savedOrder := saveNew (user_id user) PENDING in
  let! total := createItems (order_id savedOrder) (dto_items createOrderDto) 0%float in
  save (withTotal total savedOrder) ;;
  findOne (order_id savedOrder).

Definition updateStatus (id : Z) (status : OrderStatus) : M Order :=
  let! order := findOne id in
  save (withStatus status order).

(** The retry loop of [processPayment] from [attempt] on, with
    [fuel = maxRetries - attempt] iterations left.  [gateway k] is what the
    [k]-th call of this run does. *)
Fixpoint retryLoop (gateway : nat -> Z -> float -> GatewayOutcome) (order : Order)
         (fuel attempt : nat) (lastError : option Exception) (trace : list Event)
  : Store -> Store * list Event * Result PaymentResult := fun st =>
  match fuel with
  | O => (st, trace,
          Err (match lastError with Some e => e | None => ThrownUndefined end))
  | S fuel' =>
    let trace := trace ++ [Charge (order_id order) (order_total order)] in
    match gateway attempt (order_id order) (order_total order) with
    | Returns result =>
      if success result
      then ((save (withStatus CONFIRMED order) st).1, trace, Ok result)
      else retryLoop gateway order fuel' (S attempt) lastError trace st
    | Throws error =>
      retryLoop gateway order fuel' (S attempt) (Some error)
                (trace ++ [Sleep (100 * 2 ^ Z.of_nat attempt)]) st
    end
  end.

Definition processPayment (gateway : nat -> Z -> float -> GatewayOutcome) (orderId : Z)
  : Store -> Store * list Event * Result PaymentResult := fun st =>
  match findOne orderId st with
  | (st', Ok order) => retryLoop gateway order maxRetries 0 None [] st'
  | (st', Err e) => (st', [], Err e)
  end.

(** The body of [for (const item of order.items)] in [cancel]. *)
Fixpoint restockItems (items : list OrderItem) : M unit :=
  match items with
  | [] => ret tt
  | item :: rest =>
    let! product := ProductsService.findOne (item_productId item) in
    ProductsService.updateStock (product_id product)
                                (product_stock product + item_quantity item) ;;
    restockItems rest
  end.

Definition cancel (id : Z) : M Order :=
  let! order := findOne id in
  if bool_decide (order_status order ≠ PENDING)
  then throw (BadRequestException "Only pending orders can be cancelled")
  else
    restockItems (order_items order) ;;
    save (withStatus CANCELLED order).

(** [find({ relations: ['user', 'items', 'items.product'] })]. *)
Definition findAll : M (list Order) := fun st =>
  (st, Ok ((fun kr => loadOrder false st kr.1 kr.2) <$> map_to_list (orders st))).

Definition withoutUser (o : Order) : Order :=
  mkOrder (order_id o) (order_userId o) (order_status o) (order_total o)
          (order_createdAt o) None (order_items o).

(** [find({ where: { userId }, relations: ['items', 'items.product'] })]. *)
Definition findByUser (userId : Z) : M (list Order) := fun st =>
  (st, Ok ((fun kr => withoutUser (loadOrder false st kr.1 kr.2))
             <$> map_to_list (filter (fun kr => orow_userId kr.2 = userId) (orders st)))).

End OrdersService.

(** ** The order projection

    The response interfaces of [orders.interface.ts].  None of them has a
    field of an entity type: an [OrderSummary] has four scalar fields and no
    user, a [UserSummary] embeds an [OrderSummary] and no order. *)

Record OrderSummary := mkOrderSummary {
  summary_id : Z;
  summary_status : OrderStatus;
  summary_total : float;
  summary_createdAt : Z }.

Record UserSummary := mkUserSummary {
  usummary_id : Z;
  usummary_email : string;
  usummary_name : string;
  usummary_isActive : bool;
  usummary_createdAt : Z;
  latestOrder : OrderSummary }.

Record CategorySummary := mkCategorySummary {
  csummary_id : Z;
  csummary_name : string }.

Record ProductSummary := mkProductSummary {
  psummary_id : Z;
  psummary_name : string;
  psummary_price : float;
  psummary_category : option CategorySummary }.

Record OrderItemDetails := mkOrderItemDetails {
  details_id : Z;
  details_productId : Z;
  details_quantity : Z;
  details_price : float;
  details_product : ProductSummary }.

Record OrderFullDetailsResponse := mkOrderFullDetailsResponse {
  response_id : Z;
  response_status : OrderStatus;
  response_total : float;
  response_userId : Z;
  response_createdAt : Z;
  response_user : UserSummary;
  response_items : list OrderItemDetails }.

Module OrderProjection.

Definition mapCategory (c : Category) : CategorySummary :=
  mkCategorySummary (category_id c) (category_name c).

Definition mapProduct (p : Product) : ProductSummary :=
  mkProductSummary (product_id p) (product_name p) (product_price p)
                   (mapCategory <$> product_category p).

(** The callback of [order.items.map]; reading a field of a relation that
    is not loaded throws a [TypeError]. *)
Definition mapItem (item : OrderItem) : Result OrderItemDetails :=
  match item_product item with
  | Some p => Ok (mkOrderItemDetails (item_id item) (item_productId item)
                                     (item_quantity item) (item_price item)
                                     (mapProduct p))
  | None => Err TypeError
  end.

Fixpoint mapItems (items : list OrderItem) : Result (list OrderItemDetails) :=
  match items with
  | [] => Ok []
  | item :: rest =>
    match mapItem item with
    | Ok d => match mapItems rest with
              | Ok ds => Ok (d :: ds)
              | Err e => Err e
              end
    | Err e => Err e
    end
  end.

Definition mapToOrderFullDetails (order : Order) : Result OrderFullDetailsResponse :=
  match order_user order with
  | None => Err TypeError
  | Some user =>
    match mapItems (order_items order) with
    | Ok items =>
      Ok (mkOrderFullDetailsResponse
            (order_id order) (order_status order) (order_total order)
            (order_userId order) (order_createdAt order)
            (mkUserSummary (user_id user) (user_email user) (user_name user)
                           (user_isActive user) (user_createdAt user)
                           (mkOrderSummary (order_id order) (order_status order)
                                           (order_total order) (order_createdAt order)))
            items)
    | Err e => Err e
    end
  end.

Definition getOrderWithFullDetails (id : Z) : M OrderFullDetailsResponse := fun st =>
  match orders st !! id with
  | Some r => (st, mapToOrderFullDetails (OrdersService.loadOrder true st id r))
  | None => (st, Err (NotFoundException ("Order #" +:+ pretty id +:+ " not found")))
  end.

(** A loaded order has all the relations the projection reads. *)
Definition fullyLoaded (order : Order) : Prop :=
  is_Some (order_user order) ∧
  Forall (fun item => is_Some (item_product item)) (order_items order).

End OrderProjection.

(** ** Invariants, runs and scenarios *)

(** No product has negative stock. *)
Definition stockInv (st : Store) : Prop :=
  map_Forall (fun _ r => 0 <= row_stock r) (products st).

(** An operation on a product and a quantity keeps stock non-negative. *)
Definition keepsStockNonNegative {A} (op : Z -> Z -> M A) : Prop :=
  ∀ id quantity st, stockInv st → stockInv (op id quantity st).1.

(** A run of [decrementStock] calls [(productId, quantity)], one after the
    other: each call is one statement, so concurrent callers are some such
    sequence.  Returns the calls that succeeded. *)
Fixpoint reserveAll (calls : list (Z * Z)) (st : Store) : Store * list (Z * Z) :=
  match calls with
  | [] => (st, [])
  | (id, quantity) :: rest =>
    match ProductsService.decrementStock id quantity st with
    | (st', Ok _) => let (st'', done) := reserveAll rest st' in (st'', (id, quantity) :: done)
    | (st', Err _) => reserveAll rest st'
    end
  end.

(** The quantity reserved against product [id] by the calls [done]. *)
Fixpoint reservedOf (id : Z) (done : list (Z * Z)) : Z :=
  match done with
  | [] => 0
  | (k, quantity) :: rest =>
    (if bool_decide (k = id) then quantity else 0) + reservedOf id rest
  end.

Definition demoUser : User := mkUser 1 "ada@example.org" "Ada" true 10.

(** Product 1 ("Pen") has stock 1, product 2 ("Ink") has stock 5. *)
Definition demoStore : Store :=
  mkStore {[ 1 := demoUser ]}
          {[ 7 := mkCategory 7 "Office" ]}
          (<[ 1 := mkProductRow "Pen" 2.5%float 1 20 (Some 7) ]>
             {[ 2 := mkProductRow "Ink" 3%float 5 20 None ]})
          ∅ [] 1 1 1000.

(** User 1 has a pending order 1 (two "Ink"), a confirmed order 2 (one
    "Pen") and a later, cancelled order 3 (one "Ink"). *)
Definition orderStore : Store :=
  mkStore {[ 1 := demoUser ]}
          {[ 7 := mkCategory 7 "Office" ]}
          (<[ 1 := mkProductRow "Pen" 2.5%float 0 20 (Some 7) ]>
             {[ 2 := mkProductRow "Ink" 3%float 3 20 None ]})
          (<[ 1 := mkOrderRow 1 PENDING 6%float 100 ]>
             (<[ 2 := mkOrderRow 1 CONFIRMED 2.5%float 200 ]>
                {[ 3 := mkOrderRow 1 CANCELLED 3%float 300 ]}))
          [ mkOrderItemRow 1 1 2 2 3%float;
            mkOrderItemRow 2 2 1 1 2.5%float;
            mkOrderItemRow 3 3 2 1 3%float ]
          4 4 1000.

(** Scripted gateways: one that is unavailable at every call, one that
    answers every call with a non-success result, one that accepts every
    call, and one that is unavailable once and declines from then on. *)
Definition alwaysUnavailable : nat -> Z -> float -> GatewayOutcome :=
  fun _ _ _ => paymentService true 0.

Definition alwaysDeclines : nat -> Z -> float -> GatewayOutcome :=
  fun _ _ _ => Returns (mkPaymentResult false "TXN-0").

Definition alwaysPays : nat -> Z -> float -> GatewayOutcome :=
  fun _ _ _ => paymentService false 1234.

Definition unavailableThenDeclines : nat -> Z -> float -> GatewayOutcome :=
  fun k _ _ => match k with
               | O => paymentService true 0
               | S _ => Returns (mkPaymentResult false "TXN-0")
               end.

(** The status the table records for an order. *)
Definition statusOf (st : Store) (id : Z) : option OrderStatus :=
  orow_status <$> orders st !! id.

Definition isTerminal (s : OrderStatus) : bool :=
  match s with PENDING => false | CONFIRMED | CANCELLED => true end.

(** The waits of a trace and its number of gateway calls. *)
Definition sleepsOf (trace : list Event) : list Z :=
  omap (fun e => match e with Sleep ms => Some ms | Charge _ _ => None end) trace.

Definition isCharge (e : Event) : bool :=
  match e with Charge _ _ => true | Sleep _ => false end.

Definition attemptsOf (trace : list Event) : nat :=
  length (filter (fun e => isCharge e = true) trace).

(** A store transformer never changes a terminal status. *)
Definition terminalImmutable (op : Store -> Store) : Prop :=
  ∀ st id s, statusOf st id = Some s → isTerminal s = true →
             statusOf (op st) id = Some s.

(** The quantity the items of an order hold of product [pid]. *)
Fixpoint restockedOf (pid : Z) (items : list OrderItem) : Z :=
  match items with
  | [] => 0
  | it :: rest =>
    (if bool_decide (item_productId it = pid) then item_quantity it else 0)
    + restockedOf pid rest
  end.

(** [Σ price × quantity] over item rows in the program's numbers, from a
    running total. *)
Definition rowsTotal (rows : list OrderItemRow) (total : float) : float :=
  fold_left (fun acc row => PrimFloat.add acc (PrimFloat.mul (irow_price row) (numberOfZ (irow_quantity row))))
            rows total.

(** No item row points to the id the next order will get (item rows point
    to saved orders, and ids are handed out from [nextOrderId]). *)
Definition freshOrderId (st : Store) : Prop :=
  Forall (fun row => irow_orderId row ≠ nextOrderId st) (orderItems st).

(** A price change on product [pid], as a repository write. *)
Definition changePrice (pid : Z) (newPrice : float) (st : Store) : Store :=
  set_products (alter (set_row_price newPrice) pid) st.

(** Requests by user 1: two "Ink" and then one more; two "Pen"; two "Ink"
    and then two "Pen"; three "Ink" twice. *)
Definition inkDto : CreateOrderDto :=
  mkCreateOrderDto 1 [mkOrderItemDto 2 2; mkOrderItemDto 2 1].

Definition shortDto : CreateOrderDto :=
  mkCreateOrderDto 1 [mkOrderItemDto 1 2].

Definition partialDto : CreateOrderDto :=
  mkCreateOrderDto 1 [mkOrderItemDto 2 2; mkOrderItemDto 1 2].

Definition repeatedDto : CreateOrderDto :=
  mkCreateOrderDto 1 [mkOrderItemDto 2 3; mkOrderItemDto 2 3].

(** The quantity a request asks of product [pid]. *)
Fixpoint requestedOf (pid : Z) (items : list OrderItemDto) : Z :=
  match items with
  | [] => 0
  | d :: rest =>
    (if bool_decide (dto_productId d = pid) then dto_quantity d else 0)
    + requestedOf pid rest
  end.

(** Two stores that differ in their products table at most. *)
Definition sameButProducts (st st' : Store) : Prop :=
  users st' = users st ∧ categories st' = categories st ∧
  orders st' = orders st ∧ orderItems st' = orderItems st ∧
  nextOrderId st' = nextOrderId st ∧ nextOrderItemId st' = nextOrderItemId st ∧
  clock st' = clock st.

(** Order ids are handed out below [nextOrderId]: every order and every
    item row refers to an id below it. *)
Definition idsBelowNext (st : Store) : Prop :=
  map_Forall (fun k _ => k < nextOrderId st) (orders st) ∧
  Forall (fun row => irow_orderId row < nextOrderId st) (orderItems st).

(** The gateway of the file, with the draws and clock readings of its
    successive calls. *)
Definition stubGateway (draws : nat -> bool) (times : nat -> Z)
  : nat -> Z -> float -> GatewayOutcome :=
  fun k _ _ => paymentService (draws k) (times k).

(** An attempt failed: the gateway threw or its result is not a success. *)
Definition failedAt (gateway : nat -> Z -> float -> GatewayOutcome)
           (orderId : Z) (amount : float) (k : nat) : Prop :=
  match gateway k orderId amount with
  | Returns r => success r = false
  | Throws _ => True
  end.

(** The backoff waits owed by the attempts [attempt .. attempt + n - 1]
    that threw. *)
Fixpoint backoffs (gateway : nat -> Z -> float -> GatewayOutcome)
         (orderId : Z) (amount : float) (attempt n : nat) : list Z :=
  match n with
  | O => []
  | S n' =>
    match gateway attempt orderId amount with
    | Throws _ => 100 * 2 ^ Z.of_nat attempt :: backoffs gateway orderId amount (S attempt) n'
    | Returns _ => backoffs gateway orderId amount (S attempt) n'
    end
  end.

(** A category table: 1 "Root" with children 2 "Tools" and 4 "Paint"; 2 has
    the child 3 "Hammers". *)
Definition categoryTable : gmap Z CategoryRow :=
  <[ 1 := mkCategoryRow "Root" None ]>
    (<[ 2 := mkCategoryRow "Tools" (Some 1) ]>
       (<[ 3 := mkCategoryRow "Hammers" (Some 2) ]>
          {[ 4 := mkCategoryRow "Paint" (Some 1) ]})).

(** A store in which order 1 of user 1 holds two "Ink" and one "Pen" and
    there is no row for "Pen". *)
Definition penMissingStore : Store :=
  mkStore {[ 1 := demoUser ]}
          {[ 7 := mkCategory 7 "Office" ]}
          {[ 2 := mkProductRow "Ink" 3%float 3 20 None ]}
          {[ 1 := mkOrderRow 1 PENDING 8.5%float 1000 ]}
          [ mkOrderItemRow 1 1 2 2 3%float;
            mkOrderItemRow 2 1 1 1 2.5%float ]
          2 3 1000.


(** The [children.map] of the tree builder, as a function of its own. *)
Fixpoint buildChildren (children : list CategoryEntity) : Result (list CategoryTree) :=
  match children with
  | [] => Ok []
  | child :: rest =>
    match ProductsService.buildCategoryTree child with
    | Ok t => match buildChildren rest with
              | Ok ts => Ok (t :: ts)
              | Err e => Err e
              end
    | Err e => Err e
    end
  end.

(** The [tree.parent] of the tree builder. *)
Definition buildParent (parentId : option Z) (parent : option CategoryEntity)
  : Result (option CategoryTree) :=
  if truthyId parentId
  then match parent with
       | Some p => match ProductsService.buildCategoryTree p with
                   | Ok t => Ok (Some t)
                   | Err e => Err e
                   end
       | None => Err TypeError
       end
  else Ok None.


(** [orderStore] with a third product, "Clip", priced at the number the
    program reads from [0.1] (binary64 [0x1.999999999999ap-4]); and the
    request by user 1 of three "Clip". *)
Definition clipStore : Store :=
  set_products (insert 3 (mkProductRow "Clip" 0x1.999999999999ap-4%float 10 20 None))
               orderStore.

Definition clipDto : CreateOrderDto :=
  mkCreateOrderDto 1 [mkOrderItemDto 3 3].

(** An outcome of a gateway call is a failure when the call threw or when
    its result is not a success. *)
Definition failed (outcome : GatewayOutcome) : bool :=
  match outcome with
  | Throws _ => true
  | Returns r => negb (success r)
  end.



(** * Properties *)

(** ** The stock ledger *)

Section Ledger.

(** The rows a statement keyed on one id selects. *)
Lemma filter_by_id (c : ProductRow -> bool) (id : Z) (m : gmap Z ProductRow) :
  filter (fun kr : Z * ProductRow => bool_decide (kr.1 = id) && c kr.2 = true) m =
  match m !! id with
  | Some r => if c r then {[ id := r ]} else ∅
  | None => ∅
  end.
Proof.
  apply map_eq. intros k. apply option_eq. intros x.
  rewrite map_lookup_filter_Some. simpl.
  rewrite andb_true_iff, bool_decide_eq_true.
  destruct (m !! id) as [r|] eqn:E.
  - destruct (c r) eqn:Ec.
    + rewrite lookup_singleton_Some. split.
      * intros (Hk & -> & _). split; congruence.
      * intros [<- <-]. done.
    + rewrite lookup_empty. split; [|done].
      intros (Hk & -> & Hc). congruence.
  - rewrite lookup_empty. split; [|done].
    intros (Hk & -> & _). congruence.
Qed.

Lemma imap_by_id (c : ProductRow -> bool) (f : ProductRow -> ProductRow)
      (id : Z) (m : gmap Z ProductRow) :
  map_imap (fun k r => Some (if bool_decide (k = id) && c r then f r else r)) m =
  match m !! id with
  | Some r => if c r then <[ id := f r ]> m else m
  | None => m
  end.
Proof.
  apply map_eq. intros k. rewrite map_lookup_imap.
  destruct (decide (k = id)) as [->|Hne].
  - destruct (m !! id) as [r|] eqn:E; simpl; [|by rewrite E].
    rewrite bool_decide_eq_true_2 by done. simpl.
    destruct (c r); [by rewrite lookup_insert_eq | by rewrite E].
  - assert (Hk : (match m !! id with
                  | Some r => if c r then <[ id := f r ]> m else m
                  | None => m end) !! k = m !! k).
    { destruct (m !! id) as [r|]; [destruct (c r)|]; simplify_map_eq; done. }
    rewrite Hk. destruct (m !! k) as [r|]; simpl; [|done].
    by rewrite bool_decide_eq_false_2 by done.
Qed.

(** [decrementStock] as a function of the row it addresses. *)
Lemma decrementStock_eq (id quantity : Z) (st : Store) :
  ProductsService.decrementStock id quantity st =
  match products st !! id with
  | Some r =>
    if quantity <=? row_stock r
    then (set_products (insert id (set_stock (row_stock r - quantity) r)) st, Ok tt)
    else (st, Err (BadRequestException "Not enough stock available"))
  | None => (st, Err (BadRequestException "Not enough stock available"))
  end.
Proof.
  unfold ProductsService.decrementStock, bind, ProductsService.executeUpdate.
  rewrite (filter_by_id (fun r => quantity <=? row_stock r)).
  unfold set_products at 1.
  rewrite (imap_by_id (fun r => quantity <=? row_stock r)
                      (fun r => set_stock (row_stock r - quantity) r)).
  destruct (products st !! id) as [r|] eqn:E.
  - destruct (quantity <=? row_stock r).
    + by rewrite map_size_singleton.
    + rewrite map_size_empty. simpl. unfold throw. by destruct st.
  - rewrite map_size_empty. simpl. unfold throw. by destruct st.
Qed.

End Ledger.

Section LedgerClaims.

Lemma stockOf_set_products_insert st id r k :
  stockOf (set_products (insert id r) st) k =
  if decide (id = k) then Some (row_stock r) else stockOf st k.
Proof.
  unfold stockOf, set_products. simpl. rewrite lookup_insert.
  by destruct (decide (id = k)).
Qed.

Lemma updateStock_eq (id quantity : Z) (st : Store) :
  ProductsService.updateStock id quantity st =
  match products st !! id with
  | Some r =>
    (set_products (insert id (set_stock quantity r)) st,
     Ok (ProductsService.withStock quantity (ProductsService.loadProduct st id r)))
  | None => (st, Err (NotFoundException ("Product #" +:+ pretty id +:+ " not found")))
  end.
Proof.
  unfold ProductsService.updateStock, bind, ProductsService.findOne.
  by destruct (products st !! id).
Qed.

Lemma stockInv_insert st id r :
  stockInv st → 0 <= row_stock r → stockInv (set_products (insert id r) st).
Proof. intros Hinv Hr. unfold stockInv. simpl. by apply map_Forall_insert_2. Qed.

Lemma decrementStock_stockInv id quantity st :
  stockInv st → stockInv (ProductsService.decrementStock id quantity st).1.
Proof.
  intros Hinv. rewrite decrementStock_eq.
  destruct (products st !! id) as [r|] eqn:E; [|done].
  destruct (Z.leb_spec quantity (row_stock r)); [|done].
  apply stockInv_insert; [done|]. simpl. lia.
Qed.

Lemma restockItems_stockInv items : ∀ st,
  Forall (fun it => 0 <= item_quantity it) items →
  stockInv st → stockInv (OrdersService.restockItems items st).1.
Proof.
  induction items as [|it rest IH]; intros st Hq Hinv; [done|].
  inversion Hq as [|? ? Hit Hrest]; subst.
  simpl. unfold bind at 1. unfold ProductsService.findOne at 1.
  destruct (products st !! item_productId it) as [r|] eqn:E; [|done].
  unfold bind at 1. rewrite updateStock_eq. simpl. rewrite E.
  apply IH; [done|]. apply stockInv_insert; [done|]. simpl.
  specialize (Hinv _ _ E). simpl in Hinv. lia.
Qed.

Lemma reserveAll_stock calls : ∀ st id s0,
  stockOf st id = Some s0 →
  stockOf (reserveAll calls st).1 id =
    Some (s0 - reservedOf id (reserveAll calls st).2).
Proof.
  induction calls as [|[k q] rest IH]; intros st id s0 Hs; simpl.
  - rewrite Hs. f_equal. lia.
  - rewrite decrementStock_eq.
    destruct (products st !! k) as [r|] eqn:E; [|by apply IH].
    destruct (q <=? row_stock r); [|by apply IH].
    set (st1 := set_products _ st).
    destruct (reserveAll rest st1) as [st2 done] eqn:Er. simpl.
    destruct (decide (k = id)) as [->|Hne].
    + rewrite bool_decide_eq_true_2 by done.
      assert (H1 : stockOf st1 id = Some (row_stock r - q)).
      { unfold st1. rewrite stockOf_set_products_insert.
        by rewrite decide_True by done. }
      specialize (IH st1 id _ H1). rewrite Er in IH. simpl in IH.
      rewrite IH. f_equal.
      unfold stockOf in Hs. rewrite E in Hs. simpl in Hs.
      injection Hs as <-. lia.
    + rewrite bool_decide_eq_false_2 by done.
      assert (H1 : stockOf st1 id = Some s0).
      { unfold st1. rewrite stockOf_set_products_insert.
        by rewrite decide_False by done. }
      specialize (IH st1 id _ H1). rewrite Er in IH. simpl in IH.
      rewrite IH. f_equal; lia.
Qed.

Lemma reserveAll_stockInv calls : ∀ st,
  stockInv st → stockInv (reserveAll calls st).1.
Proof.
  induction calls as [|[k q] rest IH]; intros st Hinv; simpl; [done|].
  pose proof (decrementStock_stockInv k q st Hinv) as H1.
  destruct (ProductsService.decrementStock k q st) as [st1 [[]|e]]; simpl in H1.
  - specialize (IH st1 H1). by destruct (reserveAll rest st1).
  - by apply IH.
Qed.

End LedgerClaims.

(** C1, as stated, fails for the direct stock update: [updateStock] writes
    the quantity it is given, so [updateStock(1, -1)] on the product with
    stock 1 leaves stock -1. *)
Lemma updateStock_negative_counterexample :
  stockInv demoStore ∧
  stockOf demoStore 1 = Some 1 ∧
  stockOf (ProductsService.updateStock 1 (-1) demoStore).1 1 = Some (-1) ∧
  ¬ keepsStockNonNegative ProductsService.updateStock.
Proof.
  assert (Hinv : stockInv demoStore) by (apply (bool_decide_unpack _); by vm_compute).
  split; [done|]. split; [done|]. split; [done|].
  intros Hkeeps. specialize (Hkeeps 1 (-1) demoStore Hinv).
  specialize (Hkeeps 1 _ (eq_refl : products _ !! 1 = Some (mkProductRow "Pen" 2.5%float (-1) 20 (Some 7)))).
  simpl in Hkeeps. lia.
Qed.

(** C1 (amended): from a store in which no stock is negative, the
    conditional decrement keeps every stock non-negative for any quantity;
    the restock loop of [cancel] does so when the item quantities are
    non-negative; [updateStock] on an existing product does so exactly when
    the quantity written is non-negative; and after any sequence of
    [decrementStock] calls the stock of a product is its initial stock minus
    the quantities reserved against it, so these never exceed the initial
    stock. *)
Theorem stock_never_negative (st : Store) (Hinv : stockInv st) :
  (∀ id quantity, stockInv (ProductsService.decrementStock id quantity st).1) ∧
  (∀ items, Forall (fun it => 0 <= item_quantity it) items →
            stockInv (OrdersService.restockItems items st).1) ∧
  (∀ id quantity, is_Some (products st !! id) →
     (stockInv (ProductsService.updateStock id quantity st).1 ↔ 0 <= quantity)) ∧
  (∀ calls id s0, stockOf st id = Some s0 →
     stockInv (reserveAll calls st).1 ∧
     stockOf (reserveAll calls st).1 id = Some (s0 - reservedOf id (reserveAll calls st).2) ∧
     reservedOf id (reserveAll calls st).2 <= s0).
Proof.
  split; [|split; [|split]].
  - intros id quantity. by apply decrementStock_stockInv.
  - intros items Hq. by apply restockItems_stockInv.
  - intros id quantity [r E]. rewrite updateStock_eq, E. simpl. split.
    + intros Hinv'.
      specialize (Hinv' id (set_stock quantity r)). simpl in Hinv'.
      apply Hinv'. by rewrite lookup_insert_eq.
    + intros Hq. by apply stockInv_insert.
  - intros calls id s0 Hs.
    pose proof (reserveAll_stock calls st id s0 Hs) as Hs'.
    pose proof (reserveAll_stockInv calls st Hinv) as Hinv'.
    split; [done|]. split; [done|].
    unfold stockOf in Hs'.
    destruct (products (reserveAll calls st).1 !! id) as [r|] eqn:E; [|done].
    specialize (Hinv' id r E). simpl in Hinv', Hs'. injection Hs' as Hs'. lia.
Qed.

(** Two reservations of 3 and one of 2 against the stock 5 of product 2: the
    second is refused, 5 are reserved, and nothing is left. *)
Lemma stock_never_negative_witness :
  stockInv demoStore ∧
  (reserveAll [(2, 3); (2, 3); (2, 2)] demoStore).2 = [(2, 3); (2, 2)] ∧
  stockOf (reserveAll [(2, 3); (2, 3); (2, 2)] demoStore).1 2 = Some (5 - 5) ∧
  reservedOf 2 (reserveAll [(2, 3); (2, 3); (2, 2)] demoStore).2 <= 5.
Proof.
  assert (Hinv : stockInv demoStore) by (apply (bool_decide_unpack _); by vm_compute).
  split; [exact Hinv|]. split; [by vm_compute|].
  destruct (stock_never_negative demoStore Hinv) as (_ & _ & _ & Hruns).
  destruct (Hruns [(2, 3); (2, 3); (2, 2)] 2 5 eq_refl) as (_ & Hstock & Hle).
  split; [exact Hstock | exact Hle].
Defined.

(** C2: on an existing product, [decrementStock] throws "Not enough stock
    available" exactly when the stock is below the quantity; it then leaves
    the store as it was; otherwise it returns and the store differs only in
    that product's stock, lowered by the quantity.  In every case the store
    is the one the single conditional [UPDATE] leaves. *)
Theorem decrementStock_conditional (st : Store) (id quantity : Z) (r : ProductRow)
        (Hrow : products st !! id = Some r) :
  let out := ProductsService.decrementStock id quantity st in
  (out.2 = Err (BadRequestException "Not enough stock available") ↔ row_stock r < quantity) ∧
  (isOk out.2 = false ↔ row_stock r < quantity) ∧
  (row_stock r < quantity → out.1 = st) ∧
  (quantity <= row_stock r →
     out.2 = Ok tt ∧
     out.1 = set_products (insert id (set_stock (row_stock r - quantity) r)) st ∧
     stockOf out.1 id = Some (row_stock r - quantity) ∧
     (∀ k, k ≠ id → products out.1 !! k = products st !! k)) ∧
  out.1 = (ProductsService.executeUpdate
             (fun k r => bool_decide (k = id) && (quantity <=? row_stock r))
             (fun r => set_stock (row_stock r - quantity) r) st).1.
Proof.
  intros out.
  assert (Hlast : out.1 = (ProductsService.executeUpdate
             (fun k r => bool_decide (k = id) && (quantity <=? row_stock r))
             (fun r => set_stock (row_stock r - quantity) r) st).1).
  { unfold out, ProductsService.decrementStock, bind.
    destruct (ProductsService.executeUpdate _ _ st) as [st' [n|e]] eqn:Eu; [|done].
    simpl. by destruct (Nat.eqb n 0). }
  revert Hlast. unfold out. clear out. rewrite decrementStock_eq, Hrow.
  destruct (Z.leb_spec quantity (row_stock r)) as [Hle|Hlt]; simpl; intros Hlast.
  - repeat split; try done; try lia.
    + unfold stockOf. simpl. by rewrite lookup_insert_eq.
    + intros k Hk. by rewrite lookup_insert_ne.
  - repeat split; try done; lia.
Qed.

(** Product 1 has stock 1: reserving 2 is refused and changes nothing. *)
Lemma decrementStock_conditional_witness :
  (ProductsService.decrementStock 1 2 demoStore).2
    = Err (BadRequestException "Not enough stock available") ∧
  (ProductsService.decrementStock 1 2 demoStore).1 = demoStore.
Proof.
  destruct (decrementStock_conditional demoStore 1 2
              (mkProductRow "Pen" 2.5%float 1 20 (Some 7)) eq_refl)
    as (Herr & _ & Hsame & _).
  split; [apply Herr; simpl; lia | apply Hsame; simpl; lia].
Defined.

(** ** Payment retries *)

Section Payment.

Variable gateway : nat -> Z -> float -> GatewayOutcome.

Lemma findOne_Some st id r :
  orders st !! id = Some r →
  OrdersService.findOne id st = (st, Ok (OrdersService.loadOrder false st id r)).
Proof. intros E. unfold OrdersService.findOne. by rewrite E. Qed.

Lemma statusOf_save st o k :
  statusOf (OrdersService.save o st).1 k =
  if decide (order_id o = k) then Some (order_status o) else statusOf st k.
Proof.
  unfold statusOf, OrdersService.save. simpl. rewrite lookup_insert.
  by destruct (decide (order_id o = k)).
Qed.

(** The loop writes to the store at most once, and then the status
    [CONFIRMED] of the order it was given. *)
Lemma retryLoop_store order fuel : ∀ attempt lastError trace st,
  let out := OrdersService.retryLoop gateway order fuel attempt lastError trace st in
  out.1.1 = st ∨
  (isOk out.2 = true ∧
   out.1.1 = (OrdersService.save (OrdersService.withStatus CONFIRMED order) st).1).
Proof.
  induction fuel as [|fuel IH]; intros attempt lastError trace st; simpl; [by left|].
  destruct (gateway attempt _ _) as [res|e].
  - destruct (success res); simpl; [by right | apply IH].
  - apply IH.
Qed.

End Payment.

(** C6: against a gateway that throws at each of its calls, [processPayment]
    on a pending order calls the gateway three times, sleeps 100, 200 and
    400 ms after the first, second and third failure, throws the error of
    the third call, and leaves the store, hence the status [PENDING], as it
    was. *)
Theorem processPayment_gateway_always_throws
        (gateway : nat -> Z -> float -> GatewayOutcome) (errs : nat -> Exception)
        (st : Store) (orderId : Z) (r : OrderRow)
        (Horder : orders st !! orderId = Some r)
        (Hpending : orow_status r = PENDING)
        (Hthrows : ∀ attempt, gateway attempt orderId (orow_total r) = Throws (errs attempt)) :
  let out := OrdersService.processPayment gateway orderId st in
  out.1.2 = [ Charge orderId (orow_total r); Sleep (100 * 2 ^ 0);
              Charge orderId (orow_total r); Sleep (100 * 2 ^ 1);
              Charge orderId (orow_total r); Sleep (100 * 2 ^ 2) ] ∧
  attemptsOf out.1.2 = 3%nat ∧
  sleepsOf out.1.2 = [100; 200; 400] ∧
  out.2 = Err (errs 2%nat) ∧
  out.1.1 = st ∧
  statusOf out.1.1 orderId = Some PENDING.
Proof.
  intros out. unfold out, OrdersService.processPayment.
  rewrite (findOne_Some _ _ _ Horder).
  unfold OrdersService.maxRetries. simpl. rewrite !Hthrows. simpl.
  repeat split; try done.
  unfold statusOf. by rewrite Horder, <- Hpending.
Qed.

(** Order 1 of the scenario against the gateway that is always
    unavailable. *)
Lemma processPayment_gateway_always_throws_witness :
  sleepsOf (OrdersService.processPayment alwaysUnavailable 1 orderStore).1.2
    = [100; 200; 400] ∧
  (OrdersService.processPayment alwaysUnavailable 1 orderStore).2
    = Err (GatewayError "Payment service unavailable") ∧
  statusOf (OrdersService.processPayment alwaysUnavailable 1 orderStore).1.1 1
    = Some PENDING.
Proof.
  destruct (processPayment_gateway_always_throws alwaysUnavailable
              (fun _ => GatewayError "Payment service unavailable")
              orderStore 1 (mkOrderRow 1 PENDING 6%float 100)
              eq_refl eq_refl (fun _ => eq_refl))
    as (_ & _ & Hsleeps & Herr & _ & Hstatus).
  split; [exact Hsleeps|]. split; [exact Herr | exact Hstatus].
Defined.



(** The loop's own handling of a result that is not a success, which the
    declared result type of the gateway allows and the gateway of the file
    never returns: the wait and the record of the error are in the
    [catch] block only.  With a scripted gateway that declines, three
    declined attempts on order 1 are made back to back, with no wait, and
    the loop throws [lastError] unassigned; when the first call threw and
    the later ones declined, one wait of 100 ms is made and the error of
    the first call is thrown. *)
Remark retryLoop_declined_scripted :
  (OrdersService.processPayment alwaysDeclines 1 orderStore).1.2
    = [ Charge 1 6%float; Charge 1 6%float; Charge 1 6%float ] ∧
  sleepsOf (OrdersService.processPayment alwaysDeclines 1 orderStore).1.2 = [] ∧
  (OrdersService.processPayment alwaysDeclines 1 orderStore).2 = Err ThrownUndefined ∧
  sleepsOf (OrdersService.processPayment unavailableThenDeclines 1 orderStore).1.2 = [100] ∧
  (OrdersService.processPayment unavailableThenDeclines 1 orderStore).2
    = Err (GatewayError "Payment service unavailable").
Proof. repeat split; by vm_compute. Qed.

(** ** Status transitions *)

Section Transitions.

Lemma restockItems_orders items : ∀ st,
  orders (OrdersService.restockItems items st).1 = orders st.
Proof.
  induction items as [|it rest IH]; intros st; [done|].
  simpl. unfold bind at 1. unfold ProductsService.findOne at 1.
  destruct (products st !! item_productId it) as [r|] eqn:E; [|done].
  unfold bind at 1. rewrite updateStock_eq. simpl. rewrite E. by rewrite IH.
Qed.

(** [cancel] on an order that is not pending throws and writes nothing. *)
Lemma cancel_not_pending st id r :
  orders st !! id = Some r → orow_status r ≠ PENDING →
  OrdersService.cancel id st =
  (st, Err (BadRequestException "Only pending orders can be cancelled")).
Proof.
  intros E Hs. unfold OrdersService.cancel, bind.
  rewrite (findOne_Some _ _ _ E). simpl.
  by rewrite bool_decide_eq_true_2.
Qed.

(** [cancel] writes the status of the order it is called on, and only when
    that order is pending. *)
Lemma cancel_statusOf st id k :
  statusOf (OrdersService.cancel id st).1 k = statusOf st k ∨
  (k = id ∧ statusOf st id = Some PENDING).
Proof.
  unfold OrdersService.cancel, bind.
  destruct (orders st !! id) as [r|] eqn:E.
  - rewrite (findOne_Some _ _ _ E). simpl.
    destruct (decide (orow_status r = PENDING)) as [Hp|Hp].
    + rewrite bool_decide_eq_false_2 by (intros H; by apply H).
      match goal with
      | |- context [OrdersService.restockItems ?l st] =>
        pose proof (restockItems_orders l st) as Ho;
        destruct (OrdersService.restockItems l st) as [st1 [[]|e]]
      end; simpl in Ho.
      * rewrite statusOf_save. simpl.
        destruct (decide (id = k)) as [<-|Hne].
        -- right. split; [done|]. unfold statusOf. by rewrite E, <- Hp.
        -- left. unfold statusOf. by rewrite Ho.
      * left. unfold statusOf. simpl. by rewrite Ho.
    + rewrite bool_decide_eq_true_2 by done. by left.
  - unfold OrdersService.findOne. rewrite E. by left.
Qed.

Lemma processPayment_statusOf gateway st orderId k :
  let out := OrdersService.processPayment gateway orderId st in
  statusOf out.1.1 k = statusOf st k ∨
  (k = orderId ∧ statusOf out.1.1 k = Some CONFIRMED).
Proof.
  unfold OrdersService.processPayment.
  destruct (orders st !! orderId) as [r|] eqn:E.
  - rewrite (findOne_Some _ _ _ E).
    destruct (retryLoop_store gateway (OrdersService.loadOrder false st orderId r)
                OrdersService.maxRetries 0 None [] st) as [Hsame|[_ Hsaved]].
    + left. by rewrite Hsame.
    + rewrite Hsaved, statusOf_save. simpl.
      destruct (decide (orderId = k)) as [<-|Hne]; [by right | by left].
  - unfold OrdersService.findOne. rewrite E. by left.
Qed.

End Transitions.

(** C8, as stated, fails for [updateStatus]: it writes the status it is
    given whatever the current one is, so the confirmed order 2 goes back to
    [PENDING]. *)
Lemma updateStatus_terminal_counterexample :
  statusOf orderStore 2 = Some CONFIRMED ∧
  statusOf (OrdersService.updateStatus 2 PENDING orderStore).1 2 = Some PENDING ∧
  ¬ terminalImmutable (fun st => (OrdersService.updateStatus 2 PENDING st).1).
Proof.
  split; [done|]. split; [done|].
  intros Himm. specialize (Himm orderStore 2 CONFIRMED eq_refl eq_refl).
  discriminate Himm.
Qed.

(** C8 (amended): for an order whose status is [CONFIRMED] or [CANCELLED],
    [cancel] on it throws "Only pending orders can be cancelled" and leaves
    the store as it was, and no [cancel] on any order changes its status;
    [processPayment] leaves the status of a [CONFIRMED] order [CONFIRMED],
    and of any order other than the one it is called on as it was;
    [updateStatus] on it writes the status it is given. *)
Theorem terminal_status_by_operation
        (st : Store) (id : Z) (s : OrderStatus)
        (Hstatus : statusOf st id = Some s) (Hterminal : isTerminal s = true) :
  OrdersService.cancel id st
    = (st, Err (BadRequestException "Only pending orders can be cancelled")) ∧
  (∀ other, statusOf (OrdersService.cancel other st).1 id = Some s) ∧
  (∀ gateway, s = CONFIRMED →
     statusOf (OrdersService.processPayment gateway id st).1.1 id = Some CONFIRMED) ∧
  (∀ gateway other, other ≠ id →
     statusOf (OrdersService.processPayment gateway other st).1.1 id = Some s) ∧
  (∀ status, statusOf (OrdersService.updateStatus id status st).1 id = Some status).
Proof.
  unfold statusOf in Hstatus.
  destruct (orders st !! id) as [r|] eqn:E; [|done].
  simpl in Hstatus. injection Hstatus as Hr.
  split; [|split; [|split; [|split]]].
  - apply (cancel_not_pending _ _ r E). rewrite Hr. by destruct s.
  - intros other. destruct (cancel_statusOf st other id) as [->|[<- Hp]].
    + unfold statusOf. by rewrite E, <- Hr.
    + unfold statusOf in Hp. rewrite E in Hp. simpl in Hp.
      rewrite Hr in Hp. injection Hp as ->. done.
  - intros gateway ->.
    destruct (processPayment_statusOf gateway st id id) as [->|[_ ->]]; [|done].
    unfold statusOf. by rewrite E, <- Hr.
  - intros gateway other Hne.
    destruct (processPayment_statusOf gateway st other id) as [->|[Heq _]]; [|done].
    unfold statusOf. by rewrite E, <- Hr.
  - intros status. unfold OrdersService.updateStatus, bind.
    rewrite (findOne_Some _ _ _ E). rewrite statusOf_save. simpl.
    by rewrite decide_True.
Qed.

(** The cancelled order 3 of the scenario: cancelling it again is refused
    and the store is as before. *)
Lemma terminal_status_by_operation_witness :
  statusOf orderStore 3 = Some CANCELLED ∧
  OrdersService.cancel 3 orderStore
    = (orderStore, Err (BadRequestException "Only pending orders can be cancelled")) ∧
  statusOf (OrdersService.cancel 1 orderStore).1 3 = Some CANCELLED.
Proof.
  destruct (terminal_status_by_operation orderStore 3 CANCELLED eq_refl eq_refl)
    as (Hcancel & Hother & _).
  split; [reflexivity|]. split; [exact Hcancel | exact (Hother 1)].
Defined.

(** ** Cancellation *)

Section Cancellation.

(** When the products of all items exist, the restock loop runs to its end
    and adds to each product's stock what the items hold of it. *)
Lemma restockItems_ok items : ∀ st,
  Forall (fun it => is_Some (products st !! item_productId it)) items →
  ∃ st', OrdersService.restockItems items st = (st', Ok tt) ∧
         (∀ pid, stockOf st' pid
                 = (fun s => s + restockedOf pid items) <$> stockOf st pid) ∧
         orders st' = orders st.
Proof.
  induction items as [|it rest IH]; intros st Hex.
  - exists st. split; [done|]. split; [|done].
    intros pid. simpl. destruct (stockOf st pid) as [s|]; simpl; [|done].
    f_equal. lia.
  - inversion Hex as [|? ? [r E] Hrest]; subst.
    simpl. unfold bind at 1. unfold ProductsService.findOne at 1. rewrite E.
    unfold bind at 1. rewrite updateStock_eq. simpl. rewrite E.
    set (st1 := set_products _ st).
    destruct (IH st1) as (st' & Hrun & Hstock & Horders).
    { eapply Forall_impl; [exact Hrest|]. intros it' [r' E']. simpl.
      destruct (decide (item_productId it = item_productId it')) as [->|Hne].
      - rewrite lookup_insert_eq. by eexists.
      - rewrite lookup_insert_ne by done. by eexists. }
    exists st'. split; [done|]. split; [|by rewrite Horders].
    intros pid. rewrite Hstock. unfold st1.
    rewrite stockOf_set_products_insert. simpl.
    destruct (decide (item_productId it = pid)) as [<-|Hne].
    + rewrite bool_decide_eq_true_2 by done.
      unfold stockOf. rewrite E. simpl. f_equal. lia.
    + rewrite bool_decide_eq_false_2 by done.
      destruct (stockOf st pid) as [s|]; simpl; [|done]. f_equal.
Qed.

End Cancellation.

(** C5: [cancel] on a pending order whose items' products exist returns the
    order as [CANCELLED], records that status, and leaves every product with
    its former stock plus the quantities the order's items hold of it; on an
    order that is not pending ([CONFIRMED] or [CANCELLED]) it throws "Only
    pending orders can be cancelled" and leaves the store, hence every
    stock, as it was; so it returns only for a pending order. *)
Theorem cancel_compensates (st : Store) (id : Z) (r : OrderRow)
        (Horder : orders st !! id = Some r) :
  let order := OrdersService.loadOrder false st id r in
  (orow_status r = PENDING →
   Forall (fun it => is_Some (products st !! item_productId it)) (order_items order) →
   ∃ st', OrdersService.cancel id st = (st', Ok (OrdersService.withStatus CANCELLED order)) ∧
          statusOf st' id = Some CANCELLED ∧
          ∀ pid, stockOf st' pid
                 = (fun s => s + restockedOf pid (order_items order)) <$> stockOf st pid) ∧
  (orow_status r ≠ PENDING →
   OrdersService.cancel id st
     = (st, Err (BadRequestException "Only pending orders can be cancelled"))) ∧
  (isOk (OrdersService.cancel id st).2 = true → orow_status r = PENDING).
Proof.
  intros order.
  assert (Hnot : orow_status r ≠ PENDING →
                 OrdersService.cancel id st
                 = (st, Err (BadRequestException "Only pending orders can be cancelled")))
    by (intros Hs; by apply (cancel_not_pending _ _ r)).
  split; [|split; [done|]].
  - intros Hp Hex.
    destruct (restockItems_ok _ st Hex) as (st1 & Hrun & Hstock & Horders).
    exists (OrdersService.save (OrdersService.withStatus CANCELLED order) st1).1.
    split; [|split].
    + unfold OrdersService.cancel, bind. rewrite (findOne_Some _ _ _ Horder).
      fold order. change (order_status order) with (orow_status r).
      rewrite bool_decide_eq_false_2 by (intros H; by apply H).
      by rewrite Hrun.
    + rewrite statusOf_save. simpl. by rewrite decide_True.
    + intros pid. rewrite <- Hstock. done.
  - intros Hok. destruct (decide (orow_status r = PENDING)) as [|Hs]; [done|].
    rewrite (Hnot Hs) in Hok. discriminate Hok.
Qed.

(** Order 1 of the scenario holds two "Ink": cancelling it takes the stock
    of product 2 from 3 to 5 and leaves product 1 alone; the confirmed
    order 2 cannot be cancelled. *)
Lemma cancel_compensates_witness :
  statusOf (OrdersService.cancel 1 orderStore).1 1 = Some CANCELLED ∧
  stockOf (OrdersService.cancel 1 orderStore).1 2 = Some (3 + 2) ∧
  stockOf (OrdersService.cancel 1 orderStore).1 1 = Some 0 ∧
  OrdersService.cancel 2 orderStore
    = (orderStore, Err (BadRequestException "Only pending orders can be cancelled")).
Proof.
  destruct (cancel_compensates orderStore 1 (mkOrderRow 1 PENDING 6%float 100) eq_refl)
    as (Hpending & _ & _).
  destruct Hpending as (st' & Hrun & Hstatus & Hstock); [reflexivity | |].
  { repeat constructor; by eexists. }
  destruct (cancel_compensates orderStore 2 (mkOrderRow 1 CONFIRMED 2.5%float 200) eq_refl)
    as (_ & Hrefused & _).
  rewrite Hrun. simpl.
  split; [exact Hstatus|]. split; [exact (Hstock 2)|].
  split; [exact (Hstock 1) | by apply Hrefused].
Defined.

(** ** Order creation *)

Section Creation.

Lemma itemsTotal_load b st rows :
  itemsTotal (OrdersService.loadItem b st <$> rows) = rowsTotal rows 0%float.
Proof.
  unfold itemsTotal, rowsTotal. generalize 0%float.
  induction rows as [|row rest IH]; intros acc; [done|]. simpl. by rewrite IH.
Qed.

(** What a run of the item loop that reaches its end has done: it appended
    one row per requested item, with the product's price, touched neither
    the orders nor any price, and added each row's subtotal to the total. *)
Lemma createItems_ok oid dtos : ∀ total st st' total',
  OrdersService.createItems oid dtos total st = (st', Ok total') →
  ∃ rows,
    orderItems st' = orderItems st ++ rows ∧
    orders st' = orders st ∧
    users st' = users st ∧
    (∀ k, row_price <$> products st' !! k = row_price <$> products st !! k) ∧
    Forall2 (fun row d =>
               irow_orderId row = oid ∧
               irow_productId row = dto_productId d ∧
               irow_quantity row = dto_quantity d ∧
               row_price <$> products st !! dto_productId d = Some (irow_price row))
            rows dtos ∧
    total' = rowsTotal rows total.
Proof.
  induction dtos as [|d rest IH]; intros total st st' total' Hrun.
  - injection Hrun as <- <-. exists []. rewrite app_nil_r. by repeat split.
  - simpl in Hrun. unfold bind at 1 in Hrun.
    unfold ProductsService.findOne at 1 in Hrun.
    destruct (products st !! dto_productId d) as [r|] eqn:E; [|done].
    simpl in Hrun.
    destruct (Z.ltb_spec (row_stock r) (dto_quantity d)) as [Hlt|Hge]; [done|].
    unfold bind at 1 in Hrun. simpl in Hrun.
    unfold bind at 1 in Hrun. rewrite decrementStock_eq in Hrun. simpl in Hrun.
    rewrite E in Hrun.
    destruct (Z.leb_spec (dto_quantity d) (row_stock r)) as [_|Hlt]; [|lia].
    apply IH in Hrun as (rows & Hitems & Horders & Husers & Hprices & Hrows & Htotal).
    simpl in Hitems, Horders, Husers, Hprices.
    exists (mkOrderItemRow (nextOrderItemId st) oid (dto_productId d) (dto_quantity d)
                           (row_price r) :: rows).
    split; [by rewrite Hitems, <- app_assoc|].
    split; [done|]. split; [done|].
    assert (Hp : ∀ k, row_price <$> products st' !! k = row_price <$> products st !! k).
    { intros k. rewrite Hprices.
      destruct (decide (dto_productId d = k)) as [<-|Hne].
      - rewrite lookup_insert_eq, E. done.
      - by rewrite lookup_insert_ne. }
    split; [done|]. split; [|done].
    constructor.
    + simpl. by rewrite E.
    + eapply Forall2_impl; [exact Hrows|]. simpl.
      intros row d' (H1 & H2 & H3 & H4). repeat split; try done.
      rewrite <- H4.
      destruct (decide (dto_productId d = dto_productId d')) as [<-|Hne].
      * rewrite lookup_insert_eq, E. done.
      * by rewrite lookup_insert_ne.
Qed.

(** The item loop never writes to the orders table, whether it reaches its
    end or throws. *)
Lemma createItems_orders oid dtos : ∀ total st,
  orders (OrdersService.createItems oid dtos total st).1 = orders st.
Proof.
  induction dtos as [|d rest IH]; intros total st; [done|].
  simpl. unfold bind at 1. unfold ProductsService.findOne at 1.
  destruct (products st !! dto_productId d) as [r|] eqn:E; [|done].
  simpl. destruct (row_stock r <? dto_quantity d); [done|].
  unfold bind at 1. simpl. unfold bind at 1. rewrite decrementStock_eq. simpl.
  rewrite E. destruct (dto_quantity d <=? row_stock r); [|done].
  by rewrite IH.
Qed.

(** Whenever [create] throws after having found the user, the order it
    saved first is still in the table, [PENDING]. *)
Lemma create_error_keeps_order dto st e :
  is_Some (users st !! dto_userId dto) →
  (OrdersService.create dto st).2 = Err e →
  statusOf (OrdersService.create dto st).1 (nextOrderId st) = Some PENDING.
Proof.
  intros [u Eu].
  unfold OrdersService.create, bind, UsersService.findOne. rewrite Eu. simpl.
  match goal with
  | |- context [OrdersService.createItems ?o ?d ?t ?s] =>
    pose proof (createItems_orders o d t s) as Ho;
    destruct (OrdersService.createItems o d t s) as [st1 [total|e1]]
  end; simpl in Ho.
  - unfold OrdersService.findOne. simpl. by rewrite lookup_insert_eq.
  - intros _. unfold statusOf. simpl. rewrite Ho. by rewrite lookup_insert_eq.
Qed.

End Creation.

(** C4: an order that [create] returns has as its total the sum of
    [price × quantity] over its items, item by item as requested, each
    price being the price the product had when [create] was called; a later
    change of a product's price leaves the total and the recorded item
    prices of that order as they were.  The sum is the one the program
    computes: the products and the additions are those of its binary64
    numbers, taken in request order from 0, so the equality is between the
    stored number and the number that the same additions give. *)
Theorem create_total_reconciles (st st' : Store) (dto : CreateOrderDto) (o : Order)
        (Hfresh : freshOrderId st)
        (Hcreated : OrdersService.create dto st = (st', Ok o)) :
  order_total o = itemsTotal (order_items o) ∧
  Forall2 (fun it d =>
             item_productId it = dto_productId d ∧
             item_quantity it = dto_quantity d ∧
             row_price <$> products st !! dto_productId d = Some (item_price it))
          (order_items o) (dto_items dto) ∧
  OrdersService.findOne (order_id o) st' = (st', Ok o) ∧
  ∀ pid newPrice,
    ∃ o', OrdersService.findOne (order_id o) (changePrice pid newPrice st')
          = (changePrice pid newPrice st', Ok o') ∧
          order_total o' = order_total o ∧
          item_price <$> order_items o' = item_price <$> order_items o ∧
          order_total o' = itemsTotal (order_items o').
Proof.
  unfold OrdersService.create in Hcreated. unfold bind at 1 in Hcreated.
  unfold UsersService.findOne in Hcreated.
  destruct (users st !! dto_userId dto) as [u|] eqn:Eu; [|done].
  unfold bind at 1 in Hcreated. simpl in Hcreated.
  unfold bind at 1 in Hcreated.
  destruct (OrdersService.createItems _ _ _ _) as [st1 [total|e]] eqn:Hrun; [|done].
  apply createItems_ok in Hrun
    as (rows & Hitems & Horders & Husers & Hprices & Hrows & Htotal).
  simpl in Hitems, Horders, Husers, Hprices.
  unfold bind at 1 in Hcreated. simpl in Hcreated.
  unfold OrdersService.findOne in Hcreated. simpl in Hcreated.
  rewrite lookup_insert_eq in Hcreated.
  injection Hcreated as <- <-.
  set (oid := nextOrderId st) in *.
  assert (Hfilter : filter (fun i => irow_orderId i = oid) (orderItems st1) = rows).
  { rewrite Hitems, filter_app.
    assert (H0 : filter (fun i => irow_orderId i = oid) (orderItems st) = []).
    { clear -Hfresh. unfold freshOrderId in Hfresh. fold oid in Hfresh.
      induction Hfresh as [|row l Hrow _ IH]; [done|].
      by rewrite filter_cons_False. }
    rewrite H0. simpl.
    clear -Hrows. induction Hrows as [|row d l l' (H1 & _) _ IH]; [done|].
    rewrite filter_cons_True by done. by rewrite IH. }
  assert (Htot : ∀ f, itemsTotal (order_items
             (OrdersService.loadOrder false
                (set_products f (set_orders (insert oid
                   (OrdersService.rowOf (OrdersService.withTotal total
                      (mkOrder oid (user_id u) PENDING 0%float (clock st) None [])))) st1))
                oid (mkOrderRow (user_id u) PENDING total (clock st)))) = total).
  { intros f. simpl. rewrite Hfilter, itemsTotal_load. by rewrite Htotal. }
  split; [|split; [|split]].
  - simpl. rewrite Hfilter, itemsTotal_load. by rewrite Htotal.
  - simpl. rewrite Hfilter. apply Forall2_fmap_l.
    eapply Forall2_impl; [exact Hrows|]. simpl. by intros row d (_ & ? & ? & ?).
  - simpl. unfold OrdersService.findOne. simpl. by rewrite lookup_insert_eq.
  - intros pid newPrice. eexists. split.
    + unfold OrdersService.findOne, changePrice. simpl.
      rewrite lookup_insert_eq. reflexivity.
    + split; [done|]. split.
      * simpl. rewrite <- !list_fmap_compose. by apply list_fmap_ext.
      * unfold changePrice. by rewrite (Htot (alter (set_row_price newPrice) pid)).
Qed.

(** Two "Ink" and one more at 3 against [orderStore], which has three
    older orders: order 4 is created with total 9, and a later price of 9 for
    "Ink" shows in the loaded product but not in the item prices or the
    total.  Three "Clip" at the number read from [0.1]: the total is the
    program's [0.1 * 3], the number printed as [0.30000000000000004]
    ([0x1.3333333333334p-2]), which is the sum over the items and is not the
    number read from [0.3] ([0x1.3333333333333p-2]). *)
Lemma create_total_reconciles_witness :
  freshOrderId orderStore ∧
  (∃ st' o, OrdersService.create inkDto orderStore = (st', Ok o) ∧
            order_id o = 4 ∧
            order_total o = itemsTotal (order_items o) ∧
            order_total o = 9%float ∧
            ∃ o', OrdersService.findOne (order_id o) (changePrice 2 9%float st')
                  = (changePrice 2 9%float st', Ok o') ∧
                  order_total o' = order_total o ∧
                  item_price <$> order_items o' = [3%float; 3%float] ∧
                  (fun it => product_price <$> item_product it) <$> order_items o'
                  = [Some 9%float; Some 9%float]) ∧
  freshOrderId clipStore ∧
  (∃ st' o, OrdersService.create clipDto clipStore = (st', Ok o) ∧
            order_total o = itemsTotal (order_items o) ∧
            item_price <$> order_items o = [0x1.999999999999ap-4%float] ∧
            order_total o = 0x1.3333333333334p-2%float ∧
            order_total o ≠ 0x1.3333333333333p-2%float ∧
            ∃ o', OrdersService.findOne (order_id o) (changePrice 3 1%float st')
                  = (changePrice 3 1%float st', Ok o') ∧
                  order_total o' = 0x1.3333333333334p-2%float ∧
                  item_price <$> order_items o' = [0x1.999999999999ap-4%float]).
Proof.
  assert (Hfresh : freshOrderId orderStore) by (repeat constructor; simpl; lia).
  assert (Hclip : freshOrderId clipStore) by (repeat constructor; simpl; lia).
  split; [exact Hfresh|]. split; [|split; [exact Hclip|]].
  - eexists _, _. split; [vm_compute; reflexivity|].
    split; [reflexivity|].
    match goal with
    | |- order_total ?o = _ ∧ _ =>
      destruct (create_total_reconciles orderStore _ inkDto o Hfresh eq_refl)
        as (Htotal & _ & _ & Hlater)
    end.
    split; [exact Htotal|]. split; [reflexivity|].
    destruct (Hlater 2 9%float) as (o' & Hfind & Hsame & _ & _).
    exists o'. split; [exact Hfind|]. split; [exact Hsame|].
    injection Hfind as <-. split; reflexivity.
  - eexists _, _. split; [vm_compute; reflexivity|].
    match goal with
    | |- order_total ?o = _ ∧ _ =>
      destruct (create_total_reconciles clipStore _ clipDto o Hclip eq_refl)
        as (Htotal & _ & _ & Hlater)
    end.
    split; [exact Htotal|]. split; [reflexivity|]. split; [reflexivity|].
    split; [vm_compute; discriminate|].
    destruct (Hlater 3 1%float) as (o' & Hfind & Hsame & Hprices & _).
    exists o'. split; [exact Hfind|].
    split; [rewrite Hsame; reflexivity | rewrite Hprices; reflexivity].
Defined.

(** C3 fails on the code: the order row is saved before the item loop and
    the loop throws without undoing anything.  Requesting two "Pen" when
    one is in stock throws "Not enough stock for Pen" and leaves the stock
    of "Pen" at 1, but the order stays in the table, [PENDING] with total 0
    and no item, and is found, paid and cancelled like any other.  Requesting
    two "Ink" and then two "Pen" leaves the same kind of order with one item
    of the two, and the two "Ink" reserved.  Requesting three "Ink" twice
    throws naming "Ink" after having lowered the stock of "Ink" from 5
    to 2. *)
Theorem create_insufficient_stock_keeps_order :
  (OrdersService.create shortDto demoStore).2
    = Err (BadRequestException "Not enough stock for Pen") ∧
  stockOf (OrdersService.create shortDto demoStore).1 1 = Some 1 ∧
  (OrdersService.findOne 1 (OrdersService.create shortDto demoStore).1).2
    = Ok (mkOrder 1 1 PENDING 0%float 1000 (Some demoUser) []) ∧
  statusOf (OrdersService.processPayment alwaysPays 1
              (OrdersService.create shortDto demoStore).1).1.1 1 = Some CONFIRMED ∧
  isOk (OrdersService.cancel 1 (OrdersService.create shortDto demoStore).1).2 = true ∧
  (OrdersService.create partialDto demoStore).2
    = Err (BadRequestException "Not enough stock for Pen") ∧
  stockOf (OrdersService.create partialDto demoStore).1 2 = Some 3 ∧
  statusOf (OrdersService.create partialDto demoStore).1 1 = Some PENDING ∧
  orderItems (OrdersService.create partialDto demoStore).1
    = [mkOrderItemRow 1 1 2 2 3%float] ∧
  (OrdersService.create repeatedDto demoStore).2
    = Err (BadRequestException "Not enough stock for Ink") ∧
  stockOf demoStore 2 = Some 5 ∧
  stockOf (OrdersService.create repeatedDto demoStore).1 2 = Some 2.
Proof. repeat split; by vm_compute. Qed.

(** ** The projection *)

Section Projection.

Lemma mapItems_loaded items :
  Forall (fun it => is_Some (item_product it)) items →
  ∃ ds, OrderProjection.mapItems items = Ok ds ∧
        Forall2 (fun it d =>
                   ∃ p, item_product it = Some p ∧
                        d = mkOrderItemDetails
                              (item_id it) (item_productId it) (item_quantity it)
                              (item_price it)
                              (mkProductSummary
                                 (product_id p) (product_name p) (product_price p)
                                 (match product_category p with
                                  | Some c => Some (mkCategorySummary (category_id c)
                                                                      (category_name c))
                                  | None => None
                                  end)))
                items ds.
Proof.
  induction 1 as [|it rest [p Hp] _ (ds & Hds & Hall)].
  - exists []. by split.
  - eexists. simpl. unfold OrderProjection.mapItem. rewrite Hp, Hds.
    split; [reflexivity|]. constructor; [|done].
    exists p. split; [done|]. unfold OrderProjection.mapProduct.
    by destruct (product_category p).
Qed.

End Projection.

(** C9: the projection of an order whose user and item products are loaded
    returns a response whose [user.latestOrder] is the summary made of this
    order's id, status, total and creation date, equal field by field to the
    response's own; the user summary carries the user's scalar fields and
    that summary; and each item carries its product as id, name, price and
    the category as id and name, or none.  The response types have no field
    of an entity type, so nothing in the response leads back to a user or an
    order. *)
Theorem mapToOrderFullDetails_flat (order : Order)
        (Hloaded : OrderProjection.fullyLoaded order) :
  ∃ user response,
    order_user order = Some user ∧
    OrderProjection.mapToOrderFullDetails order = Ok response ∧
    latestOrder (response_user response)
      = mkOrderSummary (order_id order) (order_status order)
                       (order_total order) (order_createdAt order) ∧
    latestOrder (response_user response)
      = mkOrderSummary (response_id response) (response_status response)
                       (response_total response) (response_createdAt response) ∧
    response_user response
      = mkUserSummary (user_id user) (user_email user) (user_name user)
                      (user_isActive user) (user_createdAt user)
                      (latestOrder (response_user response)) ∧
    response_userId response = order_userId order ∧
    Forall2 (fun it d =>
               ∃ p, item_product it = Some p ∧
                    d = mkOrderItemDetails
                          (item_id it) (item_productId it) (item_quantity it)
                          (item_price it)
                          (mkProductSummary
                             (product_id p) (product_name p) (product_price p)
                             (match product_category p with
                              | Some c => Some (mkCategorySummary (category_id c)
                                                                  (category_name c))
                              | None => None
                              end)))
            (order_items order) (response_items response).
Proof.
  destruct Hloaded as [[user Huser] Hitems].
  destruct (mapItems_loaded _ Hitems) as (ds & Hds & Hall).
  exists user. eexists. split; [done|].
  unfold OrderProjection.mapToOrderFullDetails. rewrite Huser, Hds.
  split; [reflexivity|]. by repeat split.
Qed.

(** Order 1 of the scenario: its user also has the later orders 2 and 3,
    and [latestOrder] is order 1 all the same. *)
Lemma mapToOrderFullDetails_flat_witness :
  OrderProjection.fullyLoaded
    (OrdersService.loadOrder true orderStore 1 (mkOrderRow 1 PENDING 6%float 100)) ∧
  ∃ response,
    OrderProjection.getOrderWithFullDetails 1 orderStore = (orderStore, Ok response) ∧
    latestOrder (response_user response) = mkOrderSummary 1 PENDING 6%float 100 ∧
    statusOf orderStore 3 = Some CANCELLED ∧
    orow_createdAt <$> orders orderStore !! 3 = Some 300.
Proof.
  assert (Hloaded : OrderProjection.fullyLoaded
            (OrdersService.loadOrder true orderStore 1 (mkOrderRow 1 PENDING 6%float 100))).
  { split; [by eexists|]. repeat constructor. by eexists. }
  split; [exact Hloaded|].
  destruct (mapToOrderFullDetails_flat _ Hloaded)
    as (user & response & _ & Hmap & Hlatest & _).
  exists response. split; [|split; [exact Hlatest | split; reflexivity]].
  unfold OrderProjection.getOrderWithFullDetails.
  change (orders orderStore !! 1) with (Some (mkOrderRow 1 PENDING 6%float 100)).
  cbv iota beta. by rewrite Hmap.
Defined.

(** ** Batch processing *)

Section Batch.

Lemma filter_ext_in {A} (P1 P2 : A → Prop)
      `{!∀ x, Decision (P1 x), !∀ x, Decision (P2 x)} (l : list A) :
  (∀ x, x ∈ l → (P1 x ↔ P2 x)) → filter P1 l = filter P2 l.
Proof.
  induction l as [|a l IH]; intros Hiff; [done|].
  assert (Hl : filter P1 l = filter P2 l).
  { apply IH. intros x Hx. apply Hiff. by right. }
  destruct (decide (P1 a)) as [Ha|Ha].
  - rewrite !filter_cons_True; [by rewrite Hl | | done]. apply Hiff; [by left|done].
  - rewrite !filter_cons_False; [done | | done]. intros Ha'. apply Ha, Hiff; [by left|done].
Qed.

Lemma elem_of_existingIds productIds st id :
  id ∈ ProductsService.existingIds productIds st ↔
  id ∈ productIds ∧ is_Some (products st !! id).
Proof.
  unfold ProductsService.existingIds, ProductsService.existingProducts.
  rewrite elem_of_dom. unfold is_Some.
  setoid_rewrite map_lookup_filter_Some. simpl. split.
  - intros (r & Hr & Hin). split; [done | by exists r].
  - intros (Hin & r & Hr). by exists r.
Qed.

(** The missing ids are the requested ids without a row, as requested. *)
Lemma missingIds_eq productIds st :
  ProductsService.missingIds productIds st =
  filter (fun id => products st !! id = None) productIds.
Proof.
  unfold ProductsService.missingIds. apply filter_ext_in. intros id Hid.
  rewrite elem_of_existingIds, eq_None_not_Some. split.
  - intros Hn Hsome. by apply Hn.
  - intros Hn [_ Hsome]. by apply Hn.
Qed.

Lemma filter_nil_Forall {A} (P : A → Prop) `{!∀ x, Decision (P x)} (l : list A) :
  filter P l = [] ↔ Forall (fun x => ¬ P x) l.
Proof.
  induction l as [|a l IH]; [by split|].
  destruct (decide (P a)) as [Ha|Ha].
  - rewrite filter_cons_True by done. split; [done|].
    intros Hall. inversion Hall; subst. done.
  - rewrite filter_cons_False by done. rewrite IH. split.
    + intros Hall. by constructor.
    + intros Hall. by inversion Hall.
Qed.

End Batch.

(** C10: [processProductBatch] returns a result; its [success] is true
    exactly when every requested id has a row; its [errors] are, in request
    order, one "Product #id not found" entry for each requested id without
    a row (a missing id requested twice is listed twice), and [failed] is
    their number; and on the empty list the result is
    [{success: true, processed: 0, failed: 0, errors: []}] and the store is
    as it was. *)
Theorem processProductBatch_reports_missing (productIds : list Z) (st : Store) :
  ∃ result,
    (ProductsService.processProductBatch productIds st).2 = Ok result ∧
    (ProductsInterface.success result = true ↔
     Forall (fun id => is_Some (products st !! id)) productIds) ∧
    ProductsInterface.errors result
      = ProductsService.notFound <$> filter (fun id => products st !! id = None) productIds ∧
    ProductsInterface.productId <$> ProductsInterface.errors result
      = filter (fun id => products st !! id = None) productIds ∧
    ProductsInterface.failed result
      = length (filter (fun id => products st !! id = None) productIds) ∧
    (productIds = [] →
     result = ProductsInterface.mkBatchProcessingResult true 0 0 [] ∧
     (ProductsService.processProductBatch productIds st).1 = st).
Proof.
  assert (Hsuccess : ∀ l : list Z,
             Nat.eqb (length (filter (fun id => products st !! id = None) l)) 0 = true ↔
             Forall (fun id => is_Some (products st !! id)) l).
  { intros l. rewrite Nat.eqb_eq. split.
    - intros Hlen%nil_length_inv. apply filter_nil_Forall in Hlen.
      eapply Forall_impl; [exact Hlen|]. simpl. intros id Hid.
      by apply not_eq_None_Some.
    - intros Hall.
      assert (Hnil : filter (fun id => products st !! id = None) l = []).
      { apply filter_nil_Forall. eapply Forall_impl; [exact Hall|]. simpl.
        intros id Hid. by apply not_eq_None_Some. }
      by rewrite Hnil. }
  assert (Hids : ∀ l : list Z, ProductsInterface.productId <$> (ProductsService.notFound <$> l) = l).
  { intros l. rewrite <- list_fmap_compose. apply list_fmap_id. }
  destruct productIds as [|id0 rest].
  - eexists. split; [reflexivity|]. simpl. repeat split; try done.
  - unfold ProductsService.processProductBatch.
    change (Nat.eqb (length (id0 :: rest)) 0) with false. cbv beta iota.
    rewrite missingIds_eq. unfold bind.
    destruct (bool_decide _).
    + eexists. split; [reflexivity|]. simpl ProductsInterface.success.
      simpl ProductsInterface.errors. simpl ProductsInterface.failed.
      rewrite Hids, length_fmap. split; [apply Hsuccess|]. by repeat split.
    + eexists. split; [reflexivity|]. simpl ProductsInterface.success.
      simpl ProductsInterface.errors. simpl ProductsInterface.failed.
      rewrite Hids, length_fmap. split; [apply Hsuccess|]. by repeat split.
Qed.

(** Products 1 and 2 exist in [demoStore] and product 9 does not: asking
    for 2, 9, 9 and 1 reports 9 twice and touches the two rows found. *)
Lemma processProductBatch_reports_missing_witness :
  ∃ result,
    (ProductsService.processProductBatch [2; 9; 9; 1] demoStore).2 = Ok result ∧
    ProductsInterface.success result = false ∧
    ProductsInterface.processed result = 2%nat ∧
    ProductsInterface.failed result = 2%nat ∧
    ProductsInterface.productId <$> ProductsInterface.errors result = [9; 9].
Proof.
  destruct (processProductBatch_reports_missing [2; 9; 9; 1] demoStore)
    as (result & Hrun & _ & _ & Hids & Hfailed & _).
  exists result. split; [exact Hrun|].
  vm_compute in Hrun. injection Hrun as <-.
  split; [reflexivity|]. split; [reflexivity|]. split; [exact Hfailed | exact Hids].
Defined.

(** * Further properties *)

(** ** The products service *)

Section ProductsFrame.

Lemma sameButProducts_refl st : sameButProducts st st.
Proof. by repeat split. Qed.

Lemma sameButProducts_trans st1 st2 st3 :
  sameButProducts st1 st2 → sameButProducts st2 st3 → sameButProducts st1 st3.
Proof.
  intros (H1 & H2 & H3 & H4 & H5 & H6 & H7) (G1 & G2 & G3 & G4 & G5 & G6 & G7).
  repeat split; congruence.
Qed.

Lemma sameButProducts_set_products f st : sameButProducts st (set_products f st).
Proof. by repeat split. Qed.

Lemma updateStock_frame id quantity st :
  sameButProducts st (ProductsService.updateStock id quantity st).1.
Proof.
  rewrite updateStock_eq.
  destruct (products st !! id) as [r|];
    [apply sameButProducts_set_products | apply sameButProducts_refl].
Qed.

Lemma restockItems_frame items : ∀ st,
  sameButProducts st (OrdersService.restockItems items st).1.
Proof.
  induction items as [|it rest IH]; intros st; [apply sameButProducts_refl|].
  simpl. unfold bind at 1. unfold ProductsService.findOne at 1.
  destruct (products st !! item_productId it) as [r|] eqn:E;
    [|apply sameButProducts_refl].
  unfold bind at 1. rewrite updateStock_eq. simpl. rewrite E.
  eapply sameButProducts_trans; [|apply IH]. apply sameButProducts_set_products.
Qed.

Lemma remove_eq id st :
  ProductsService.remove id st =
  match products st !! id with
  | Some _ =>
    if ProductsService.referenced id st
    then (st, Err QueryFailedError)
    else (set_products (delete id) st, Ok tt)
  | None => (st, Err (NotFoundException ("Product #" +:+ pretty id +:+ " not found")))
  end.
Proof.
  unfold ProductsService.remove, bind, ProductsService.findOne.
  by destruct (products st !! id).
Qed.

End ProductsFrame.

(** X1: [decrementStock] on an id that has no row throws the same "Not
    enough stock available" as on a short stock, not a not-found error, and
    leaves the store as it was. *)
Theorem decrementStock_missing_product (st : Store) (id quantity : Z)
        (Hmissing : products st !! id = None) :
  ProductsService.decrementStock id quantity st
    = (st, Err (BadRequestException "Not enough stock available")) ∧
  (ProductsService.findOne id st).2
    = Err (NotFoundException ("Product #" +:+ pretty id +:+ " not found")).
Proof.
  rewrite decrementStock_eq. unfold ProductsService.findOne.
  by rewrite Hmissing.
Qed.

Lemma decrementStock_missing_product_witness :
  ProductsService.decrementStock 9 1 demoStore
    = (demoStore, Err (BadRequestException "Not enough stock available")) ∧
  (ProductsService.findOne 9 demoStore).2
    = Err (NotFoundException "Product #9 not found").
Proof. exact (decrementStock_missing_product demoStore 9 1 eq_refl). Defined.

(** X2: two reservations of non-negative quantities against one product, one
    after the other, both succeed exactly when one reservation of their sum
    succeeds, and then leave the store that one reservation leaves. *)
Theorem decrementStock_twice (st : Store) (id q1 q2 : Z)
        (Hq1 : 0 <= q1) (Hq2 : 0 <= q2) :
  let first := ProductsService.decrementStock id q1 st in
  let second := ProductsService.decrementStock id q2 first.1 in
  let both := ProductsService.decrementStock id (q1 + q2) st in
  (isOk first.2 && isOk second.2 = isOk both.2) ∧
  (isOk both.2 = true → second.1 = both.1).
Proof.
  simpl. rewrite !decrementStock_eq.
  destruct (products st !! id) as [r|] eqn:E; simpl; [|by rewrite E].
  destruct (Z.leb_spec q1 (row_stock r)) as [H1|H1]; simpl.
  - rewrite lookup_insert_eq. simpl.
    destruct (Z.leb_spec q2 (row_stock r - q1)) as [H2|H2];
      destruct (Z.leb_spec (q1 + q2) (row_stock r)) as [H3|H3];
      simpl; try lia; try done.
    split; [done|]. intros _. unfold set_products. simpl.
    rewrite insert_insert_eq. unfold set_stock. simpl.
    by replace (row_stock r - q1 - q2) with (row_stock r - (q1 + q2)) by lia.
  - rewrite E.
    destruct (Z.leb_spec (q1 + q2) (row_stock r)) as [H3|H3]; simpl; [lia|done].
Qed.

Lemma decrementStock_twice_witness :
  stockOf (ProductsService.decrementStock 2 3
             (ProductsService.decrementStock 2 2 demoStore).1).1 2 = Some 0 ∧
  (ProductsService.decrementStock 2 3
     (ProductsService.decrementStock 2 2 demoStore).1).1
  = (ProductsService.decrementStock 2 5 demoStore).1.
Proof.
  destruct (decrementStock_twice demoStore 2 2 3) as [_ Hsame]; [lia | lia |].
  split; [reflexivity | by apply Hsame].
Defined.

(** X3: after [updateStock(id, q)] on an existing product, [findOne(id)]
    returns that product with stock [q] and every other field as before; the
    rows of the other products are untouched, and so are all other tables. *)
Theorem updateStock_then_findOne (st : Store) (id quantity : Z) (r : ProductRow)
        (Hrow : products st !! id = Some r) :
  let st' := (ProductsService.updateStock id quantity st).1 in
  ProductsService.findOne id st'
    = (st', Ok (ProductsService.withStock quantity (ProductsService.loadProduct st id r))) ∧
  (ProductsService.updateStock id quantity st).2
    = Ok (ProductsService.withStock quantity (ProductsService.loadProduct st id r)) ∧
  (∀ k, k ≠ id → products st' !! k = products st !! k) ∧
  sameButProducts st st'.
Proof.
  simpl. split; [|split; [|split]].
  - rewrite updateStock_eq, Hrow. simpl. unfold ProductsService.findOne. simpl.
    by rewrite lookup_insert_eq.
  - by rewrite updateStock_eq, Hrow.
  - intros k Hk. rewrite updateStock_eq, Hrow. simpl. by rewrite lookup_insert_ne.
  - apply updateStock_frame.
Qed.

Lemma updateStock_then_findOne_witness :
  (ProductsService.findOne 1 (ProductsService.updateStock 1 40 demoStore).1).2
  = Ok (mkProduct 1 "Pen" 2.5%float 40 20 (Some 7) (Some (mkCategory 7 "Office"))).
Proof.
  destruct (updateStock_then_findOne demoStore 1 40
              (mkProductRow "Pen" 2.5%float 1 20 (Some 7)) eq_refl) as [Hfind _].
  simpl in Hfind. by rewrite Hfind.
Defined.

(** X4: [updateStock] on an id that has no row throws "Product #id not
    found" and writes nothing; and of two updates of one product the later
    one wins: the store is the one the later update alone leaves. *)
Theorem updateStock_missing_and_overwrite (st : Store) (id q1 q2 : Z) :
  (products st !! id = None →
   ProductsService.updateStock id q1 st
     = (st, Err (NotFoundException ("Product #" +:+ pretty id +:+ " not found")))) ∧
  (ProductsService.updateStock id q2 (ProductsService.updateStock id q1 st).1).1
    = (ProductsService.updateStock id q2 st).1.
Proof.
  split.
  - intros Hnone. by rewrite updateStock_eq, Hnone.
  - rewrite !updateStock_eq.
    destruct (products st !! id) as [r|] eqn:E; simpl.
    + rewrite lookup_insert_eq. simpl. unfold set_products. simpl.
      by rewrite insert_insert_eq.
    + by rewrite E.
Qed.

Lemma updateStock_missing_and_overwrite_witness :
  ProductsService.updateStock 9 4 demoStore
    = (demoStore, Err (NotFoundException "Product #9 not found")) ∧
  stockOf (ProductsService.updateStock 2 8 (ProductsService.updateStock 2 4 demoStore).1).1 2
    = Some 8.
Proof.
  destruct (updateStock_missing_and_overwrite demoStore 9 4 4) as [Hmissing _].
  split; [by apply Hmissing | reflexivity].
Defined.

(** X5: [remove] of an existing product that no order item refers to deletes
    its row and no other: a later [findOne] of it throws not-found and a
    later [decrementStock] of it is refused.  While an order item refers to
    the product, [remove] is refused with a [QueryFailedError] and changes
    nothing; for an id that has no row it throws not-found and changes
    nothing. *)
Theorem remove_then_lookup (st : Store) (id : Z) :
  let out := ProductsService.remove id st in
  (is_Some (products st !! id) →
   Forall (fun row => irow_productId row ≠ id) (orderItems st) →
   out.2 = Ok tt ∧
   products out.1 = delete id (products st) ∧
   sameButProducts st out.1 ∧
   (ProductsService.findOne id out.1).2
     = Err (NotFoundException ("Product #" +:+ pretty id +:+ " not found")) ∧
   ∀ quantity, ProductsService.decrementStock id quantity out.1
               = (out.1, Err (BadRequestException "Not enough stock available"))) ∧
  (is_Some (products st !! id) →
   Exists (fun row => irow_productId row = id) (orderItems st) →
   out = (st, Err QueryFailedError)) ∧
  (products st !! id = None →
   out = (st, Err (NotFoundException ("Product #" +:+ pretty id +:+ " not found")))).
Proof.
  simpl. rewrite remove_eq. unfold ProductsService.referenced.
  split; [|split].
  - intros [r E] Hfree. rewrite E.
    rewrite bool_decide_eq_false_2.
    2:{ intros Hex. apply Exists_exists in Hex as (row & Hin & Hrow).
        by apply (proj1 (Forall_forall _ _) Hfree row Hin). }
    simpl. split; [done|]. split; [done|].
    split; [apply sameButProducts_set_products|]. split.
    + unfold ProductsService.findOne. simpl. by rewrite lookup_delete_eq.
    + intros quantity. rewrite decrementStock_eq. simpl. by rewrite lookup_delete_eq.
  - intros [r E] Hex. rewrite E. by rewrite bool_decide_eq_true_2.
  - intros E. by rewrite E.
Qed.

(** No order of [demoStore] holds a "Pen", which can be removed; order 1 of
    [orderStore] holds "Ink", which cannot. *)
Lemma remove_then_lookup_witness :
  (ProductsService.remove 1 demoStore).2 = Ok tt ∧
  (ProductsService.findOne 1 (ProductsService.remove 1 demoStore).1).2
    = Err (NotFoundException "Product #1 not found") ∧
  stockOf (ProductsService.remove 1 demoStore).1 2 = Some 5 ∧
  ProductsService.remove 2 orderStore = (orderStore, Err QueryFailedError).
Proof.
  destruct (remove_then_lookup demoStore 1) as [Hfree _].
  destruct Hfree as (Hok & _ & _ & Hfind & _); [by eexists | constructor |].
  destruct (remove_then_lookup orderStore 2) as (_ & Hrefused & _).
  split; [exact Hok|]. split; [exact Hfind|]. split; [reflexivity|].
  apply Hrefused; [by eexists|]. by left.
Defined.

(** ** Order creation and its reversal *)

Section CreationEffects.

Lemma set_stock_same r q : q = row_stock r → set_stock q r = r.
Proof. intros ->. by destruct r. Qed.

(** A run of the item loop that reaches its end has lowered the stock of
    each product by what the request asks of it and changed no other
    column. *)
Lemma createItems_products oid dtos : ∀ total st st' total',
  OrdersService.createItems oid dtos total st = (st', Ok total') →
  ∀ pid, products st' !! pid
         = (fun r => set_stock (row_stock r - requestedOf pid dtos) r) <$> products st !! pid.
Proof.
  induction dtos as [|d rest IH]; intros total st st' total' Hrun pid.
  - injection Hrun as <- _. simpl.
    destruct (products st !! pid) as [r|]; simpl; [|done].
    f_equal. symmetry. apply set_stock_same. lia.
  - simpl in Hrun. unfold bind at 1 in Hrun.
    unfold ProductsService.findOne at 1 in Hrun.
    destruct (products st !! dto_productId d) as [r|] eqn:E; [|done].
    simpl in Hrun.
    destruct (Z.ltb_spec (row_stock r) (dto_quantity d)) as [Hlt|Hge]; [done|].
    unfold bind at 1 in Hrun. simpl in Hrun.
    unfold bind at 1 in Hrun. rewrite decrementStock_eq in Hrun. simpl in Hrun.
    rewrite E in Hrun.
    destruct (Z.leb_spec (dto_quantity d) (row_stock r)) as [_|Hlt]; [|lia].
    rewrite (IH _ _ _ _ Hrun pid). simpl.
    destruct (decide (dto_productId d = pid)) as [<-|Hne].
    + rewrite bool_decide_eq_true_2 by done.
      rewrite lookup_insert_eq, E. simpl. f_equal. unfold set_stock. simpl.
      f_equal. lia.
    + rewrite bool_decide_eq_false_2 by done.
      rewrite lookup_insert_ne by done.
      destruct (products st !! pid) as [r'|]; simpl; [|done].
      do 2 f_equal; lia.
Qed.

(** Whatever its outcome, the item loop only appends item rows of its
    order, and besides them and the products it changes the counter of item
    ids at most. *)
Lemma createItems_appends oid dtos : ∀ total st st' res,
  OrdersService.createItems oid dtos total st = (st', res) →
  users st' = users st ∧ orders st' = orders st ∧
  nextOrderId st' = nextOrderId st ∧
  ∃ rows, orderItems st' = orderItems st ++ rows ∧
          Forall (fun row => irow_orderId row = oid) rows.
Proof.
  assert (Hnone : ∀ st : Store,
             users st = users st ∧ orders st = orders st ∧
             nextOrderId st = nextOrderId st ∧
             ∃ rows, orderItems st = orderItems st ++ rows ∧
                     Forall (fun row => irow_orderId row = oid) rows).
  { intros st. split; [done|]. split; [done|]. split; [done|].
    exists []. by rewrite app_nil_r. }
  induction dtos as [|d rest IH]; intros total st st' res Hrun.
  { injection Hrun as <- _. apply Hnone. }
  simpl in Hrun. unfold bind at 1 in Hrun.
  unfold ProductsService.findOne at 1 in Hrun.
  destruct (products st !! dto_productId d) as [r|] eqn:E.
  2:{ injection Hrun as <- _. apply Hnone. }
  simpl in Hrun. destruct (row_stock r <? dto_quantity d).
  { injection Hrun as <- _. apply Hnone. }
  unfold bind at 1 in Hrun. simpl in Hrun.
  unfold bind at 1 in Hrun. rewrite decrementStock_eq in Hrun. simpl in Hrun.
  rewrite E in Hrun. destruct (dto_quantity d <=? row_stock r).
  - apply IH in Hrun as (H1 & H2 & H3 & rows & H4 & H5).
    simpl in H1, H2, H3, H4.
    split; [done|]. split; [done|]. split; [done|].
    eexists (_ :: rows). split; [by rewrite H4, <- app_assoc|].
    by constructor.
  - injection Hrun as <- _. simpl. split; [done|]. split; [done|]. split; [done|].
    eexists [_]. split; [done|]. by constructor.
Qed.

Lemma createItems_stockInv oid dtos : ∀ total st,
  stockInv st → stockInv (OrdersService.createItems oid dtos total st).1.
Proof.
  induction dtos as [|d rest IH]; intros total st Hinv; [done|].
  simpl. unfold bind at 1. unfold ProductsService.findOne at 1.
  destruct (products st !! dto_productId d) as [r|] eqn:E; [|done].
  simpl. destruct (row_stock r <? dto_quantity d); [done|].
  unfold bind at 1. simpl. unfold bind at 1.
  match goal with
  | |- context [ProductsService.decrementStock ?i ?q ?s] =>
    pose proof (decrementStock_stockInv i q s Hinv) as Hdec;
    destruct (ProductsService.decrementStock i q s) as [st2 [[]|e]]
  end; simpl in Hdec; [|done].
  by apply IH.
Qed.

(** What [create] has done when it returns an order. *)
Lemma create_Ok_inv dto st st' o :
  OrdersService.create dto st = (st', Ok o) →
  ∃ u st0 st1 total,
    users st !! dto_userId dto = Some u ∧
    st0 = (OrdersService.saveNew (user_id u) PENDING st).1 ∧
    OrdersService.createItems (nextOrderId st) (dto_items dto) 0%float st0 = (st1, Ok total) ∧
    st' = set_orders (insert (nextOrderId st)
                             (mkOrderRow (user_id u) PENDING total (clock st))) st1 ∧
    o = OrdersService.loadOrder false st' (nextOrderId st)
                                (mkOrderRow (user_id u) PENDING total (clock st)).
Proof.
  unfold OrdersService.create, bind, UsersService.findOne.
  destruct (users st !! dto_userId dto) as [u|] eqn:Eu; [|done]. simpl.
  destruct (OrdersService.createItems _ _ _ _) as [st1 [total|e]] eqn:Hrun; [|done].
  unfold OrdersService.findOne. simpl. rewrite lookup_insert_eq.
  intros [= <- <-]. exists u. eexists. exists st1, total.
  split; [done|]. split; [reflexivity|]. split; [exact Hrun|]. by split.
Qed.

(** With the products of all items in place, the restock loop adds to each
    product's stock what the items hold of it and changes no other column. *)
Lemma restockItems_products items : ∀ st,
  Forall (fun it => is_Some (products st !! item_productId it)) items →
  ∃ st', OrdersService.restockItems items st = (st', Ok tt) ∧
         ∀ pid, products st' !! pid
                = (fun r => set_stock (row_stock r + restockedOf pid items) r)
                    <$> products st !! pid.
Proof.
  induction items as [|it rest IH]; intros st Hex.
  - exists st. split; [done|]. intros pid. simpl.
    destruct (products st !! pid) as [r|]; simpl; [|done].
    f_equal. symmetry. apply set_stock_same. lia.
  - inversion Hex as [|? ? [r E] Hrest]; subst.
    simpl. unfold bind at 1. unfold ProductsService.findOne at 1. rewrite E.
    unfold bind at 1. rewrite updateStock_eq. simpl. rewrite E.
    set (st1 := set_products _ st).
    destruct (IH st1) as (st' & Hrun & Hrows).
    { eapply Forall_impl; [exact Hrest|]. intros it' [r' E']. simpl.
      destruct (decide (item_productId it = item_productId it')) as [->|Hne].
      - rewrite lookup_insert_eq. by eexists.
      - rewrite lookup_insert_ne by done. by eexists. }
    exists st'. split; [done|]. intros pid. rewrite Hrows. unfold st1. simpl.
    destruct (decide (item_productId it = pid)) as [<-|Hne].
    + rewrite bool_decide_eq_true_2 by done.
      rewrite lookup_insert_eq, E. simpl. f_equal. unfold set_stock. simpl.
      f_equal. lia.
    + rewrite bool_decide_eq_false_2 by done.
      rewrite lookup_insert_ne by done.
      destruct (products st !! pid) as [r'|]; simpl; [|done].
      do 2 f_equal; lia.
Qed.

Lemma restockedOf_load b st pid (rows : list OrderItemRow) (dtos : list OrderItemDto) :
  Forall2 (fun row d => irow_productId row = dto_productId d ∧
                        irow_quantity row = dto_quantity d) rows dtos →
  restockedOf pid (OrdersService.loadItem b st <$> rows) = requestedOf pid dtos.
Proof.
  induction 1 as [|r d l l' [H2 H3] _ IH]; [done|].
  rewrite fmap_cons. cbn [restockedOf requestedOf].
  rewrite IH. cbn [item_productId item_quantity OrdersService.loadItem].
  by rewrite H2, H3.
Qed.

End CreationEffects.

(** X6: an order that [create] returns is the order with the next id, is
    [PENDING], and has cost each product exactly the quantity the request
    asks of it, summed over the request's lines; no other column of a product
    and no other order has changed. *)
Theorem create_reserves_requested (st st' : Store) (dto : CreateOrderDto) (o : Order)
        (Hcreated : OrdersService.create dto st = (st', Ok o)) :
  order_id o = nextOrderId st ∧
  order_status o = PENDING ∧
  statusOf st' (order_id o) = Some PENDING ∧
  (∀ pid, products st' !! pid
          = (fun r => set_stock (row_stock r - requestedOf pid (dto_items dto)) r)
              <$> products st !! pid) ∧
  (∀ pid, stockOf st' pid
          = (fun s => s - requestedOf pid (dto_items dto)) <$> stockOf st pid) ∧
  (∀ k, k ≠ nextOrderId st → orders st' !! k = orders st !! k).
Proof.
  apply create_Ok_inv in Hcreated as (u & st0 & st1 & total & Hu & -> & Hrun & -> & ->).
  pose proof (createItems_products _ _ _ _ _ _ Hrun) as Hproducts.
  apply createItems_appends in Hrun as (_ & Horders & _).
  simpl in Hproducts, Horders.
  split; [done|]. split; [done|].
  split; [unfold statusOf; simpl; by rewrite lookup_insert_eq|].
  split; [exact Hproducts|]. split.
  - intros pid. unfold stockOf. simpl. rewrite Hproducts.
    by destruct (products st !! pid).
  - intros k Hk. simpl. rewrite lookup_insert_ne by done. rewrite Horders.
    by rewrite lookup_insert_ne.
Qed.

Lemma create_reserves_requested_witness :
  ∃ st' o, OrdersService.create inkDto orderStore = (st', Ok o) ∧
           order_id o = 4 ∧
           stockOf st' 2 = Some (3 - 3) ∧
           stockOf st' 1 = Some (0 - 0) ∧
           statusOf st' 2 = Some CONFIRMED.
Proof.
  eexists _, _. split; [vm_compute; reflexivity|].
  match goal with
  | |- order_id ?o = _ ∧ _ =>
    destruct (create_reserves_requested orderStore _ inkDto o eq_refl)
      as (Hid & _ & _ & _ & Hstock & _)
  end.
  split; [exact Hid|]. split; [exact (Hstock 2)|]. split; [exact (Hstock 1)|].
  reflexivity.
Defined.

(** X7: cancelling an order right after [create] returned it succeeds and
    puts the products table back exactly as it was before the order was
    created. *)
Theorem create_then_cancel (st st1 : Store) (dto : CreateOrderDto) (o : Order)
        (Hfresh : freshOrderId st)
        (Hcreated : OrdersService.create dto st = (st1, Ok o)) :
  ∃ st2, OrdersService.cancel (order_id o) st1
         = (st2, Ok (OrdersService.withStatus CANCELLED o)) ∧
         products st2 = products st ∧
         statusOf st2 (order_id o) = Some CANCELLED.
Proof.
  apply create_Ok_inv in Hcreated as (u & st0 & st1' & total & Hu & -> & Hrun & -> & ->).
  pose proof (createItems_products _ _ _ _ _ _ Hrun) as Hproducts.
  pose proof (createItems_ok _ _ _ _ _ _ Hrun)
    as (rows & Hitems & _ & _ & Hprices & Hrows & _).
  simpl in Hproducts, Hitems, Hprices.
  set (oid := nextOrderId st) in *.
  set (row := mkOrderRow (user_id u) PENDING total (clock st)) in *.
  set (st1 := set_orders (insert oid row) st1').
  set (o := OrdersService.loadOrder false st1 oid row).
  assert (Hfilter : filter (fun i => irow_orderId i = oid) (orderItems st1') = rows).
  { rewrite Hitems, filter_app.
    assert (H0 : filter (fun i => irow_orderId i = oid) (orderItems st) = []).
    { clear -Hfresh. unfold freshOrderId in Hfresh. fold oid in Hfresh.
      induction Hfresh as [|r l Hr _ IH]; [done|].
      by rewrite filter_cons_False. }
    rewrite H0. simpl.
    clear -Hrows. induction Hrows as [|r d l l' (H1 & _) _ IH]; [done|].
    rewrite filter_cons_True by done. by rewrite IH. }
  assert (Hloaded : order_items o = OrdersService.loadItem false st1 <$> rows).
  { unfold o. simpl. by rewrite Hfilter. }
  assert (Hqty : ∀ pid, restockedOf pid (order_items o) = requestedOf pid (dto_items dto)).
  { intros pid. rewrite Hloaded. apply restockedOf_load.
    eapply Forall2_impl; [exact Hrows|]. by intros r d (_ & ? & ? & _). }
  assert (Hex : Forall (fun it => is_Some (products st1 !! item_productId it))
                       (order_items o)).
  { rewrite Hloaded, Forall_fmap.
    assert (Hrows' : Forall2 (fun r d => is_Some (products st1' !! irow_productId r))
                             rows (dto_items dto)).
    { eapply Forall2_impl; [exact Hrows|]. intros r d (_ & H2 & _ & H4).
      simpl in H4. rewrite H2.
      specialize (Hprices (dto_productId d)). rewrite H4 in Hprices.
      destruct (products st1' !! dto_productId d); [by eexists | done]. }
    clear -Hrows'. induction Hrows'; constructor; done. }
  destruct (restockItems_products _ st1 Hex) as (st2 & Hrestock & Hback).
  exists (OrdersService.save (OrdersService.withStatus CANCELLED o) st2).1.
  assert (Hfind : OrdersService.findOne oid st1 = (st1, Ok o)).
  { unfold OrdersService.findOne, st1. simpl. by rewrite lookup_insert_eq. }
  change (order_id o) with oid.
  split; [|split].
  - unfold OrdersService.cancel, bind. rewrite Hfind.
    change (order_status o) with PENDING.
    rewrite bool_decide_eq_false_2 by (intros H; by apply H).
    by rewrite Hrestock.
  - simpl. apply map_eq. intros pid. rewrite Hback. simpl. rewrite Hproducts, Hqty.
    destruct (products st !! pid) as [r|]; simpl; [|done].
    f_equal. unfold set_stock. destruct r; simpl. f_equal. lia.
  - rewrite statusOf_save. simpl. by rewrite decide_True.
Qed.

Lemma create_then_cancel_witness :
  freshOrderId orderStore ∧
  ∃ st1 o st2, OrdersService.create inkDto orderStore = (st1, Ok o) ∧
               stockOf st1 2 = Some 0 ∧
               OrdersService.cancel (order_id o) st1
               = (st2, Ok (OrdersService.withStatus CANCELLED o)) ∧
               products st2 = products orderStore.
Proof.
  assert (Hfresh : freshOrderId orderStore) by (repeat constructor; simpl; lia).
  split; [exact Hfresh|].
  eexists _, _.
  match goal with
  | |- ∃ st2, OrdersService.create _ _ = (?st1, Ok ?o) ∧ _ =>
    assert (Hc : OrdersService.create inkDto orderStore = (st1, Ok o))
      by (vm_compute; reflexivity);
    destruct (create_then_cancel orderStore _ inkDto _ Hfresh Hc)
      as (st2 & Hcancel & Hproducts & _)
  end.
  exists st2. split; [exact Hc|]. split; [reflexivity|].
  split; [exact Hcancel | exact Hproducts].
Defined.

Section CreationOutcomes.

(** What [create] has done, whatever its outcome: nothing when the user is
    unknown; otherwise it saved the order row, ran the item loop, and, when
    the loop reached its end, wrote the order row once more. *)
Lemma create_inv_any dto st st' res :
  OrdersService.create dto st = (st', res) →
  st' = st ∨
  ∃ u st1 r1,
    OrdersService.createItems (nextOrderId st) (dto_items dto) 0%float
      (OrdersService.saveNew (user_id u) PENDING st).1 = (st1, r1) ∧
    (st' = st1 ∨ ∃ row, st' = set_orders (insert (nextOrderId st) row) st1).
Proof.
  unfold OrdersService.create, bind, UsersService.findOne.
  destruct (users st !! dto_userId dto) as [u|] eqn:Eu.
  2:{ intros [= <- _]. by left. }
  simpl.
  destruct (OrdersService.createItems _ _ _ _) as [st1 [total|e]] eqn:Hrun.
  - unfold OrdersService.findOne. simpl. rewrite lookup_insert_eq.
    intros [= <- _]. right. exists u, st1, (Ok total). split; [exact Hrun|].
    right. by eexists.
  - intros [= <- _]. right. exists u, st1, (Err e). split; [exact Hrun|]. by left.
Qed.

Lemma idsBelowNext_sameButProducts st st' :
  sameButProducts st st' → idsBelowNext st → idsBelowNext st'.
Proof.
  intros (_ & _ & Ho & Hi & Hn & _) [H1 H2]. unfold idsBelowNext.
  by rewrite Ho, Hi, Hn.
Qed.

Lemma idsBelowNext_save st o :
  is_Some (orders st !! order_id o) → idsBelowNext st →
  idsBelowNext (OrdersService.save o st).1.
Proof.
  intros [r E] [H1 H2]. split; [|done]. simpl.
  apply map_Forall_insert_2; [|done]. by apply (H1 _ _ E).
Qed.

End CreationOutcomes.

(** X8: [create] keeps every stock non-negative, whether it returns an order
    or throws part of the way. *)
Theorem create_preserves_stockInv (st : Store) (dto : CreateOrderDto)
        (Hinv : stockInv st) :
  stockInv (OrdersService.create dto st).1.
Proof.
  destruct (OrdersService.create dto st) as [st' res] eqn:Hc. simpl.
  apply create_inv_any in Hc as [->|(u & st1 & r1 & Hrun & Hst')]; [done|].
  assert (H1 : stockInv st1).
  { pose proof (createItems_stockInv (nextOrderId st) (dto_items dto) 0%float
                  (OrdersService.saveNew (user_id u) PENDING st).1 Hinv) as H.
    by rewrite Hrun in H. }
  destruct Hst' as [->|[row ->]]; done.
Qed.

Lemma create_preserves_stockInv_witness :
  stockInv demoStore ∧
  stockInv (OrdersService.create partialDto demoStore).1 ∧
  isOk (OrdersService.create partialDto demoStore).2 = false.
Proof.
  assert (Hinv : stockInv demoStore) by (apply (bool_decide_unpack _); by vm_compute).
  split; [exact Hinv|].
  split; [exact (create_preserves_stockInv demoStore partialDto Hinv) | reflexivity].
Defined.

(** X9: whatever its outcome, [create] leaves every existing order row as
    it was, keeps the existing item rows in place and only appends item rows
    of the order it is creating, and leaves the users alone. *)
Theorem create_keeps_existing (st : Store) (dto : CreateOrderDto) :
  (∀ k, k ≠ nextOrderId st →
        orders (OrdersService.create dto st).1 !! k = orders st !! k) ∧
  (∃ rows, orderItems (OrdersService.create dto st).1 = orderItems st ++ rows ∧
           Forall (fun row => irow_orderId row = nextOrderId st) rows) ∧
  users (OrdersService.create dto st).1 = users st.
Proof.
  destruct (OrdersService.create dto st) as [st' res] eqn:Hc. simpl.
  apply create_inv_any in Hc as [->|(u & st1 & r1 & Hrun & Hst')].
  { split; [done|]. split; [|done]. exists []. by rewrite app_nil_r. }
  apply createItems_appends in Hrun as (Hu & Ho & _ & rows & Hi & Hrows).
  simpl in Hu, Ho, Hi.
  destruct Hst' as [->|[row ->]]; simpl.
  - split; [|split; [by exists rows | done]].
    intros k Hk. rewrite Ho. by rewrite lookup_insert_ne.
  - split; [|split; [by exists rows | done]].
    intros k Hk. rewrite lookup_insert_ne by done. rewrite Ho.
    by rewrite lookup_insert_ne.
Qed.

Lemma create_keeps_existing_witness :
  orders (OrdersService.create inkDto orderStore).1 !! 2
    = Some (mkOrderRow 1 CONFIRMED 2.5%float 200) ∧
  ∃ rows, orderItems (OrdersService.create inkDto orderStore).1
          = orderItems orderStore ++ rows.
Proof.
  destruct (create_keeps_existing orderStore inkDto) as (Horders & (rows & Hrows & _) & _).
  split; [by rewrite Horders|]. by exists rows.
Defined.

(** X10: that every order row and every item row refers to an order id
    below [nextOrderId] is kept by [create] (whatever its outcome), [cancel],
    [updateStatus] and [processPayment]; and it entails that no item row
    points to the id the next order gets. *)
Theorem idsBelowNext_preserved (st : Store) (Hids : idsBelowNext st) :
  freshOrderId st ∧
  (∀ dto, idsBelowNext (OrdersService.create dto st).1) ∧
  (∀ id, idsBelowNext (OrdersService.cancel id st).1) ∧
  (∀ id status, idsBelowNext (OrdersService.updateStatus id status st).1) ∧
  (∀ gateway id, idsBelowNext (OrdersService.processPayment gateway id st).1.1).
Proof.
  split; [|split; [|split; [|split]]].
  - destruct Hids as [_ H2]. eapply Forall_impl; [exact H2|]. simpl. lia.
  - intros dto.
    destruct (OrdersService.create dto st) as [st' res] eqn:Hc. simpl.
    apply create_inv_any in Hc as [->|(u & st1 & r1 & Hrun & Hst')]; [done|].
    apply createItems_appends in Hrun as (_ & Ho & Hn & rows & Hi & Hrows).
    simpl in Ho, Hn, Hi.
    assert (H1 : idsBelowNext st1).
    { destruct Hids as [H1 H2]. split.
      - rewrite Ho, Hn. apply map_Forall_insert_2; [lia|].
        eapply map_Forall_impl; [exact H1|]. simpl. lia.
      - rewrite Hi, Hn. apply Forall_app. split.
        + eapply Forall_impl; [exact H2|]. simpl. lia.
        + eapply Forall_impl; [exact Hrows|]. simpl. lia. }
    destruct Hst' as [->|[row ->]]; [done|].
    destruct H1 as [H1 H2]. split; [|done]. simpl.
    apply map_Forall_insert_2; [lia | done].
  - intros id. unfold OrdersService.cancel, bind.
    destruct (orders st !! id) as [r|] eqn:E.
    2:{ unfold OrdersService.findOne. by rewrite E. }
    rewrite (findOne_Some _ _ _ E).
    destruct (bool_decide _); [done|].
    match goal with
    | |- context [OrdersService.restockItems ?l st] =>
      pose proof (restockItems_frame l st) as Hframe;
      destruct (OrdersService.restockItems l st) as [st1 [[]|e]]
    end; simpl in Hframe.
    + apply idsBelowNext_save.
      * destruct Hframe as (_ & _ & -> & _). simpl. by eexists.
      * by apply (idsBelowNext_sameButProducts st).
    + by apply (idsBelowNext_sameButProducts st).
  - intros id status. unfold OrdersService.updateStatus, bind.
    destruct (orders st !! id) as [r|] eqn:E.
    2:{ unfold OrdersService.findOne. by rewrite E. }
    rewrite (findOne_Some _ _ _ E). apply idsBelowNext_save; [|done].
    simpl. by eexists.
  - intros gateway id. unfold OrdersService.processPayment.
    destruct (orders st !! id) as [r|] eqn:E.
    2:{ unfold OrdersService.findOne. by rewrite E. }
    rewrite (findOne_Some _ _ _ E).
    destruct (retryLoop_store gateway (OrdersService.loadOrder false st id r)
                OrdersService.maxRetries 0 None [] st) as [->|[_ ->]]; [done|].
    apply idsBelowNext_save; [|done]. simpl. by eexists.
Qed.

Lemma idsBelowNext_preserved_witness :
  idsBelowNext orderStore ∧
  freshOrderId orderStore ∧
  idsBelowNext (OrdersService.create inkDto orderStore).1 ∧
  nextOrderId (OrdersService.create inkDto orderStore).1 = 5.
Proof.
  assert (Hids : idsBelowNext orderStore).
  { split; [apply (bool_decide_unpack _); by vm_compute|].
    repeat constructor; simpl; lia. }
  destruct (idsBelowNext_preserved orderStore Hids) as (Hfresh & Hcreate & _).
  split; [exact Hids|]. split; [exact Hfresh|].
  split; [exact (Hcreate inkDto) | reflexivity].
Defined.

(** ** Payment retries, for any gateway *)

Section RetryLoop.

Variable gateway : nat -> Z -> float -> GatewayOutcome.
Variable order : Order.

Lemma attemptsOf_app t1 t2 : attemptsOf (t1 ++ t2) = (attemptsOf t1 + attemptsOf t2)%nat.
Proof. unfold attemptsOf. by rewrite filter_app, length_app. Qed.

Lemma sleepsOf_app t1 t2 : sleepsOf (t1 ++ t2) = sleepsOf t1 ++ sleepsOf t2.
Proof. apply omap_app. Qed.

Lemma attemptsOf_charge o a : attemptsOf [Charge o a] = 1%nat.
Proof. done. Qed.

Lemma attemptsOf_sleep ms : attemptsOf [Sleep ms] = 0%nat.
Proof. done. Qed.

(** A run of the loop makes [n] calls, at most [fuel]; it sleeps after the
    calls that threw and after no other; it returns a result only if that
    result is a success, having then saved the order as [CONFIRMED]; and it
    throws only after all [fuel] calls, having written nothing. *)
Lemma retryLoop_run fuel : ∀ attempt lastError trace st st' trace' res,
  OrdersService.retryLoop gateway order fuel attempt lastError trace st
    = (st', trace', res) →
  ∃ n, (n <= fuel)%nat ∧
       attemptsOf trace' = (attemptsOf trace + n)%nat ∧
       sleepsOf trace' = sleepsOf trace
                         ++ backoffs gateway (order_id order) (order_total order) attempt n ∧
       match res with
       | Ok r => success r = true ∧
                 st' = (OrdersService.save (OrdersService.withStatus CONFIRMED order) st).1
       | Err _ => n = fuel ∧ st' = st
       end.
Proof.
  induction fuel as [|fuel IH]; intros attempt lastError trace st st' trace' res Hrun.
  - simpl in Hrun. injection Hrun as <- <- <-. exists 0%nat.
    split; [lia|]. split; [lia|]. split; [by rewrite app_nil_r | done].
  - simpl in Hrun.
    destruct (gateway attempt (order_id order) (order_total order)) as [r|e] eqn:Eg.
    + destruct (success r) eqn:Es.
      * injection Hrun as <- <- <-. exists 1%nat.
        split; [lia|]. split; [by rewrite attemptsOf_app, attemptsOf_charge|].
        split; [|done]. simpl. rewrite Eg, sleepsOf_app. simpl. by rewrite app_nil_r.
      * apply IH in Hrun as (n & Hn & Ha & Hs & Hres). exists (S n).
        split; [lia|]. split; [rewrite Ha, attemptsOf_app, attemptsOf_charge; lia|].
        split; [|destruct res; [done|]; destruct Hres; split; [lia|done]].
        rewrite Hs, sleepsOf_app. simpl. rewrite Eg. by rewrite app_nil_r.
    + apply IH in Hrun as (n & Hn & Ha & Hs & Hres). exists (S n).
      split; [lia|].
      split; [rewrite Ha, !attemptsOf_app, attemptsOf_charge, attemptsOf_sleep; lia|].
      split; [|destruct res; [done|]; destruct Hres; split; [lia|done]].
      rewrite Hs, !sleepsOf_app. simpl. rewrite Eg. by rewrite <- !app_assoc.
Qed.

Lemma backoffs_sublist n : ∀ attempt m,
  (n <= m)%nat →
  backoffs gateway (order_id order) (order_total order) attempt n
    `sublist_of` ((fun i => 100 * 2 ^ Z.of_nat i) <$> seq attempt m).
Proof.
  induction n as [|n IH]; intros attempt m Hle; [apply sublist_nil_l|].
  destruct m as [|m]; [lia|]. simpl.
  destruct (gateway attempt _ _).
  - apply sublist_cons, IH. lia.
  - apply sublist_skip, IH. lia.
Qed.

End RetryLoop.

(** X12: whatever the gateway does, [processPayment] calls it at most three
    times; its waits are taken, in order, from 100, 200 and 400 ms; it never
    touches a product, an item row or another order; when it throws it has
    written nothing at all; and for an id that has no order it throws
    "Order #id not found" without calling the gateway. *)
Theorem processPayment_bounded (gateway : nat -> Z -> float -> GatewayOutcome)
        (orderId : Z) (st : Store) :
  let out := OrdersService.processPayment gateway orderId st in
  (attemptsOf out.1.2 <= 3)%nat ∧
  sleepsOf out.1.2 `sublist_of` [100; 200; 400] ∧
  products out.1.1 = products st ∧ orderItems out.1.1 = orderItems st ∧
  (∀ k, k ≠ orderId → orders out.1.1 !! k = orders st !! k) ∧
  (isOk out.2 = false → out.1.1 = st) ∧
  (orders st !! orderId = None →
   out = (st, [], Err (NotFoundException ("Order #" +:+ pretty orderId +:+ " not found")))).
Proof.
  simpl. unfold OrdersService.processPayment.
  destruct (orders st !! orderId) as [r|] eqn:E.
  2:{ unfold OrdersService.findOne. rewrite E. simpl.
      split; [change (attemptsOf []) with 0%nat; lia|].
      split; [apply sublist_nil_l|]. by repeat split. }
  rewrite (findOne_Some _ _ _ E).
  destruct (OrdersService.retryLoop _ _ _ _ _ _ _) as [[st' trace'] res] eqn:Hrun.
  apply retryLoop_run in Hrun as (n & Hn & Ha & Hs & Hres). cbn [fst snd].
  split; [unfold OrdersService.maxRetries in Hn; rewrite Ha;
          change (attemptsOf []) with 0%nat; lia|].
  split; [rewrite Hs; exact (backoffs_sublist gateway _ n 0%nat 3%nat Hn)|].
  destruct res as [result|e].
  - destruct Hres as [_ ->]. simpl.
    split; [done|]. split; [done|]. split; [|done].
    intros k Hk. by rewrite lookup_insert_ne.
  - destruct Hres as [_ ->]. by repeat split.
Qed.

Lemma processPayment_bounded_witness :
  attemptsOf (OrdersService.processPayment unavailableThenDeclines 1 orderStore).1.2 = 3%nat ∧
  sleepsOf (OrdersService.processPayment unavailableThenDeclines 1 orderStore).1.2
    `sublist_of` [100; 200; 400] ∧
  (OrdersService.processPayment alwaysPays 7 orderStore)
    = (orderStore, [], Err (NotFoundException "Order #7 not found")).
Proof.
  destruct (processPayment_bounded unavailableThenDeclines 1 orderStore)
    as (_ & Hsleeps & _).
  destruct (processPayment_bounded alwaysPays 7 orderStore)
    as (_ & _ & _ & _ & _ & _ & Hmissing).
  split; [reflexivity|]. split; [exact Hsleeps | by apply Hmissing].
Defined.

(** X13: when the first [k] attempts fail, by throwing or by a non-success
    result, and attempt [k] (one of the three) returns a success, then
    [processPayment] returns that result after [k + 1] calls and no more,
    having slept after the attempts that threw only, and the order row is as
    before but for the status [CONFIRMED]. *)
Theorem processPayment_first_success
        (gateway : nat -> Z -> float -> GatewayOutcome) (st : Store) (orderId : Z)
        (r : OrderRow) (k : nat) (result : PaymentResult)
        (Horder : orders st !! orderId = Some r)
        (Hk : (k < 3)%nat)
        (Hfailed : ∀ i, (i < k)%nat → failedAt gateway orderId (orow_total r) i)
        (Hreturns : gateway k orderId (orow_total r) = Returns result)
        (Hsuccess : success result = true) :
  let out := OrdersService.processPayment gateway orderId st in
  out.2 = Ok result ∧
  attemptsOf out.1.2 = S k ∧
  sleepsOf out.1.2 = backoffs gateway orderId (orow_total r) 0 k ∧
  out.1.1 = set_orders (insert orderId (mkOrderRow (orow_userId r) CONFIRMED
                                                   (orow_total r) (orow_createdAt r))) st ∧
  statusOf out.1.1 orderId = Some CONFIRMED.
Proof.
  simpl. unfold OrdersService.processPayment. rewrite (findOne_Some _ _ _ Horder).
  unfold OrdersService.maxRetries, failedAt in *.
  assert (Hstatus : ∀ row, statusOf (set_orders (insert orderId row) st) orderId
                           = Some (orow_status row)).
  { intros row. unfold statusOf. simpl. by rewrite lookup_insert_eq. }
  destruct k as [|[|[|k]]]; [| | |lia].
  - simpl. rewrite Hreturns, Hsuccess. simpl. by repeat split.
  - pose proof (Hfailed 0%nat ltac:(lia)) as H0. simpl.
    destruct (gateway 0%nat orderId (orow_total r)) as [r0|e0].
    + rewrite H0. simpl. rewrite Hreturns, Hsuccess. simpl. by repeat split.
    + simpl. rewrite Hreturns, Hsuccess. simpl. by repeat split.
  - pose proof (Hfailed 0%nat ltac:(lia)) as H0.
    pose proof (Hfailed 1%nat ltac:(lia)) as H1. simpl.
    destruct (gateway 0%nat orderId (orow_total r)) as [r0|e0];
      destruct (gateway 1%nat orderId (orow_total r)) as [r1|e1];
      rewrite ?H0, ?H1; simpl; rewrite Hreturns, Hsuccess; simpl; by repeat split.
Qed.

Lemma processPayment_first_success_witness :
  (OrdersService.processPayment
     (fun k _ _ => match k with
                   | 2%nat => paymentService false 77
                   | _ => paymentService true 0
                   end) 1 orderStore).2 = Ok (mkPaymentResult true "TXN-77") ∧
  sleepsOf (OrdersService.processPayment
     (fun k _ _ => match k with
                   | 2%nat => paymentService false 77
                   | _ => paymentService true 0
                   end) 1 orderStore).1.2 = [100; 200].
Proof.
  destruct (processPayment_first_success
              (fun k _ _ => match k with
                            | 2%nat => paymentService false 77
                            | _ => paymentService true 0
                            end)
              orderStore 1 (mkOrderRow 1 PENDING 6%float 100) 2
              (mkPaymentResult true "TXN-77") eq_refl)
    as (Hres & _ & Hsleeps & _); [lia | | reflexivity | reflexivity |].
  { intros i Hi. destruct i as [|[|i]]; [exact I | exact I | lia]. }
  split; [exact Hres | exact Hsleeps].
Defined.

(** X14: with the gateway of the file, which either throws "Payment service
    unavailable" or returns a success, [processPayment] on an existing order
    throws exactly when all three draws are unavailable, and then that
    error, with the store untouched; otherwise it returns a success and the
    order is [CONFIRMED].  It never throws an unassigned error. *)
Theorem processPayment_stub (draws : nat -> bool) (times : nat -> Z)
        (st : Store) (orderId : Z) (r : OrderRow)
        (Horder : orders st !! orderId = Some r) :
  let out := OrdersService.processPayment (stubGateway draws times) orderId st in
  (draws 0%nat && draws 1%nat && draws 2%nat = true →
   out.2 = Err (GatewayError "Payment service unavailable") ∧ out.1.1 = st ∧
   sleepsOf out.1.2 = [100; 200; 400]) ∧
  (draws 0%nat && draws 1%nat && draws 2%nat = false →
   ∃ result, out.2 = Ok result ∧ success result = true ∧
             statusOf out.1.1 orderId = Some CONFIRMED) ∧
  out.2 ≠ Err ThrownUndefined.
Proof.
  simpl. unfold OrdersService.processPayment. rewrite (findOne_Some _ _ _ Horder).
  unfold OrdersService.maxRetries, stubGateway, paymentService.
  assert (Hstatus : ∀ row, statusOf (set_orders (insert orderId row) st) orderId
                           = Some (orow_status row)).
  { intros row. unfold statusOf. simpl. by rewrite lookup_insert_eq. }
  simpl.
  destruct (draws 0%nat); simpl; [destruct (draws 1%nat); simpl;
                                  [destruct (draws 2%nat); simpl|]|].
  - by repeat split.
  - split; [done|]. split; [|done]. intros _. eexists. by repeat split.
  - split; [done|]. split; [|done]. intros _. eexists. by repeat split.
  - split; [done|]. split; [|done]. intros _. eexists. by repeat split.
Qed.

Lemma processPayment_stub_witness :
  ∃ result,
    (OrdersService.processPayment
       (stubGateway (fun k => Nat.eqb k 0) (fun _ => 5)) 1 orderStore).2 = Ok result ∧
    success result = true ∧
    statusOf (OrdersService.processPayment
                (stubGateway (fun k => Nat.eqb k 0) (fun _ => 5)) 1 orderStore).1.1 1
      = Some CONFIRMED.
Proof.
  destruct (processPayment_stub (fun k => Nat.eqb k 0) (fun _ => 5) orderStore 1
              (mkOrderRow 1 PENDING 6%float 100) eq_refl) as (_ & Hpaid & _).
  by apply Hpaid.
Defined.

(** ** Status updates and repeated or partial cancellation *)

(** X15: [updateStatus] on an existing order rewrites its row with the given
    status and the same user, total and creation date, writes nothing else,
    and a later [findOne] returns the order it returned; on an id that has no
    order it throws "Order #id not found" and writes nothing. *)
Theorem updateStatus_then_findOne (st : Store) (id : Z) (status : OrderStatus) :
  let out := OrdersService.updateStatus id status st in
  (∀ r, orders st !! id = Some r →
        out.2 = Ok (OrdersService.withStatus status (OrdersService.loadOrder false st id r)) ∧
        out.1 = set_orders (insert id (mkOrderRow (orow_userId r) status (orow_total r)
                                                  (orow_createdAt r))) st ∧
        OrdersService.findOne id out.1 = (out.1, out.2)) ∧
  (orders st !! id = None →
   out = (st, Err (NotFoundException ("Order #" +:+ pretty id +:+ " not found")))).
Proof.
  simpl. unfold OrdersService.updateStatus, bind. split.
  - intros r E. rewrite (findOne_Some _ _ _ E). simpl.
    split; [done|]. split; [done|].
    unfold OrdersService.findOne. simpl. by rewrite lookup_insert_eq.
  - intros E. unfold OrdersService.findOne. by rewrite E.
Qed.

Lemma updateStatus_then_findOne_witness :
  statusOf (OrdersService.updateStatus 1 CONFIRMED orderStore).1 1 = Some CONFIRMED ∧
  orow_total <$> orders (OrdersService.updateStatus 1 CONFIRMED orderStore).1 !! 1
    = Some 6%float ∧
  OrdersService.updateStatus 8 CONFIRMED orderStore
    = (orderStore, Err (NotFoundException "Order #8 not found")).
Proof.
  destruct (updateStatus_then_findOne orderStore 1 CONFIRMED) as [Hfound _].
  destruct (Hfound _ eq_refl) as (_ & Hstore & _).
  destruct (updateStatus_then_findOne orderStore 8 CONFIRMED) as [_ Hmissing].
  rewrite Hstore. split; [reflexivity|]. split; [reflexivity | by apply Hmissing].
Defined.

Section CancelOutcomes.

Lemma cancel_Ok_inv id st st' o :
  OrdersService.cancel id st = (st', Ok o) →
  order_id o = id ∧ order_status o = CANCELLED ∧
  ∃ st1, st' = (OrdersService.save o st1).1.
Proof.
  unfold OrdersService.cancel, bind.
  destruct (orders st !! id) as [r|] eqn:E.
  2:{ unfold OrdersService.findOne. by rewrite E. }
  rewrite (findOne_Some _ _ _ E).
  destruct (bool_decide _); [done|].
  destruct (OrdersService.restockItems _ st) as [st1 [[]|e]]; [|done].
  intros [= <- <-]. split; [done|]. split; [done|]. by exists st1.
Qed.


End CancelOutcomes.

(** X16: once [cancel] has returned an order, a second [cancel] of it throws
    "Only pending orders can be cancelled" and writes nothing, so the stock
    is given back once. *)
Theorem cancel_twice (st st1 : Store) (id : Z) (o : Order)
        (Hcancelled : OrdersService.cancel id st = (st1, Ok o)) :
  order_status o = CANCELLED ∧
  statusOf st1 id = Some CANCELLED ∧
  OrdersService.cancel id st1
    = (st1, Err (BadRequestException "Only pending orders can be cancelled")).
Proof.
  apply cancel_Ok_inv in Hcancelled as (Hid & Hs & st0 & ->).
  assert (E : orders (OrdersService.save o st0).1 !! id = Some (OrdersService.rowOf o)).
  { simpl. by rewrite Hid, lookup_insert_eq. }
  split; [done|]. split.
  - unfold statusOf. rewrite E. simpl. by rewrite Hs.
  - apply (cancel_not_pending _ _ _ E). simpl. by rewrite Hs.
Qed.

Lemma cancel_twice_witness :
  ∃ st1 o, OrdersService.cancel 1 orderStore = (st1, Ok o) ∧
           stockOf st1 2 = Some 5 ∧
           OrdersService.cancel 1 st1
           = (st1, Err (BadRequestException "Only pending orders can be cancelled")).
Proof.
  eexists _, _.
  match goal with
  | |- OrdersService.cancel _ _ = (?st1, Ok ?o) ∧ _ =>
    assert (Hc : OrdersService.cancel 1 orderStore = (st1, Ok o))
      by (vm_compute; reflexivity);
    destruct (cancel_twice orderStore _ 1 _ Hc) as (_ & _ & Hagain)
  end.
  split; [exact Hc|]. split; [reflexivity | exact Hagain].
Defined.



(** ** Failed creation *)

Section CreationFailure.

(** The item loop throws at the first line whose product is missing or
    short of stock, with the error that names it. *)
Lemma createItems_error oid dtos : ∀ total st st' e,
  OrdersService.createItems oid dtos total st = (st', Err e) →
  ∃ d, d ∈ dtos ∧
       ((products st' !! dto_productId d = None ∧
         e = NotFoundException ("Product #" +:+ pretty (dto_productId d) +:+ " not found")) ∨
        (∃ r, products st' !! dto_productId d = Some r ∧
              row_stock r < dto_quantity d ∧
              e = BadRequestException ("Not enough stock for " +:+ row_name r))).
Proof.
  induction dtos as [|d rest IH]; intros total st st' e Hrun; [done|].
  simpl in Hrun. unfold bind at 1 in Hrun.
  unfold ProductsService.findOne at 1 in Hrun.
  destruct (products st !! dto_productId d) as [r|] eqn:E.
  2:{ injection Hrun as <- <-. exists d. split; [by left|]. by left. }
  simpl in Hrun.
  destruct (Z.ltb_spec (row_stock r) (dto_quantity d)) as [Hlt|Hge].
  { injection Hrun as <- <-. exists d. split; [by left|]. right. by exists r. }
  unfold bind at 1 in Hrun. simpl in Hrun.
  unfold bind at 1 in Hrun. rewrite decrementStock_eq in Hrun. simpl in Hrun.
  rewrite E in Hrun.
  destruct (Z.leb_spec (dto_quantity d) (row_stock r)) as [_|Hlt]; [|lia].
  apply IH in Hrun as (d' & Hin & Hd'). exists d'. split; [by right | done].
Qed.

End CreationFailure.

(** X11: when [create] throws for a known user, the error is the not-found
    or the not-enough-stock error of one of the requested lines, as the
    products stand when it is thrown; and the order saved before the loop is
    still in the table, [PENDING], with total 0, its id used up. *)
Theorem create_failure_outcome (st : Store) (dto : CreateOrderDto) (u : User)
        (e : Exception)
        (Huser : users st !! dto_userId dto = Some u)
        (Hthrows : (OrdersService.create dto st).2 = Err e) :
  let st' := (OrdersService.create dto st).1 in
  orders st' !! nextOrderId st = Some (mkOrderRow (user_id u) PENDING 0%float (clock st)) ∧
  nextOrderId st' = nextOrderId st + 1 ∧
  ∃ d, d ∈ dto_items dto ∧
       ((products st' !! dto_productId d = None ∧
         e = NotFoundException ("Product #" +:+ pretty (dto_productId d) +:+ " not found")) ∨
        (∃ r, products st' !! dto_productId d = Some r ∧
              row_stock r < dto_quantity d ∧
              e = BadRequestException ("Not enough stock for " +:+ row_name r))).
Proof.
  revert Hthrows. simpl.
  unfold OrdersService.create, bind, UsersService.findOne. rewrite Huser. simpl.
  destruct (OrdersService.createItems _ _ _ _) as [st1 [total|e1]] eqn:Hrun.
  { unfold OrdersService.findOne. simpl. by rewrite lookup_insert_eq. }
  simpl. intros [= ->].
  pose proof (createItems_appends _ _ _ _ _ _ Hrun) as (_ & Ho & Hn & _).
  simpl in Ho, Hn.
  split; [by rewrite Ho, lookup_insert_eq|]. split; [done|].
  by apply createItems_error in Hrun.
Qed.

Lemma create_failure_outcome_witness :
  (OrdersService.create partialDto demoStore).2
    = Err (BadRequestException "Not enough stock for Pen") ∧
  orders (OrdersService.create partialDto demoStore).1 !! 1
    = Some (mkOrderRow 1 PENDING 0%float 1000) ∧
  nextOrderId (OrdersService.create partialDto demoStore).1 = 2.
Proof.
  destruct (create_failure_outcome demoStore partialDto demoUser
              (BadRequestException "Not enough stock for Pen") eq_refl eq_refl)
    as (Horder & Hnext & _).
  split; [reflexivity|]. split; [exact Horder | exact Hnext].
Defined.

(** ** Listings *)

(** X18: [findAll] of the orders returns each order of the table once, and
    an order is in it exactly when [findOne] of its id returns it;
    [findByUser] returns, once each and without the user relation, exactly
    those of them whose [userId] is the one asked for, and its result is
    empty, not an error, for a user without orders. *)
Theorem orders_listings (st : Store) (userId : Z) :
  ∃ all mine,
    OrdersService.findAll st = (st, Ok all) ∧
    OrdersService.findByUser userId st = (st, Ok mine) ∧
    NoDup (order_id <$> all) ∧ NoDup (order_id <$> mine) ∧
    (∀ o, o ∈ all ↔ OrdersService.findOne (order_id o) st = (st, Ok o)) ∧
    (∀ o, o ∈ mine ↔ ∃ o', o' ∈ all ∧ order_userId o' = userId ∧
                          o = OrdersService.withoutUser o') ∧
    ((∀ id r, orders st !! id = Some r → orow_userId r ≠ userId) → mine = []).
Proof.
  eexists _, _. split; [reflexivity|]. split; [reflexivity|].
  assert (Hall : ∀ o, o ∈ (fun kr => OrdersService.loadOrder false st kr.1 kr.2)
                          <$> map_to_list (orders st)
                      ↔ OrdersService.findOne (order_id o) st = (st, Ok o)).
  { intros o. rewrite list_elem_of_fmap. unfold OrdersService.findOne. split.
    - intros ([k r] & -> & Hin). apply elem_of_map_to_list in Hin. simpl.
      by rewrite Hin.
    - destruct (orders st !! order_id o) as [r|] eqn:E; [|done].
      intros [= Ho]. exists (order_id o, r). split; [done|].
      by apply elem_of_map_to_list. }
  split; [|split; [|split; [exact Hall|split]]].
  - rewrite <- list_fmap_compose. apply NoDup_fst_map_to_list.
  - rewrite <- list_fmap_compose. apply NoDup_fst_map_to_list.
  - intros o. rewrite list_elem_of_fmap. split.
    + intros ([k r] & -> & Hin). apply elem_of_map_to_list in Hin.
      apply map_lookup_filter_Some in Hin as [Hin Hu]. simpl in *.
      exists (OrdersService.loadOrder false st k r). split; [|done].
      apply list_elem_of_fmap. exists (k, r). split; [done|].
      by apply elem_of_map_to_list.
    + intros (o' & Hin & Hu & ->). apply list_elem_of_fmap in Hin as ([k r] & -> & Hin).
      apply elem_of_map_to_list in Hin. exists (k, r). split; [done|].
      apply elem_of_map_to_list, map_lookup_filter_Some. by split.
  - intros Hnone.
    assert (Hempty : filter (fun kr : Z * OrderRow => orow_userId kr.2 = userId) (orders st) = ∅).
    { apply map_eq. intros k. rewrite lookup_empty.
      apply map_lookup_filter_None. right. intros r E. simpl. by apply (Hnone k). }
    by rewrite Hempty, map_to_list_empty.
Qed.

Lemma orders_listings_witness :
  ∃ mine, OrdersService.findByUser 1 orderStore = (orderStore, Ok mine) ∧
          length mine = 3%nat ∧
          (OrdersService.findByUser 5 orderStore).2 = Ok [].
Proof.
  destruct (orders_listings orderStore 5) as (all & mine & _ & Hmine & _ & _ & _ & _ & Hnone).
  eexists. split; [reflexivity|]. split; [vm_compute; reflexivity|].
  rewrite Hmine. simpl. f_equal. apply Hnone.
  intros id r E.
  destruct (decide (id = 1)) as [->|?]; [by injection E as <-|].
  destruct (decide (id = 2)) as [->|?]; [by injection E as <-|].
  destruct (decide (id = 3)) as [->|?]; [by injection E as <-|].
  unfold orderStore in E. simpl in E.
  rewrite !lookup_insert_ne in E by done. by rewrite lookup_singleton_ne in E.
Defined.

(** X19: [findAll] of the products returns each row once, and a product is
    in it exactly when [findOne] of its id returns it. *)
Theorem products_findAll (st : Store) :
  ∃ all, ProductsService.findAll st = (st, Ok all) ∧
         NoDup (product_id <$> all) ∧
         length all = size (products st) ∧
         ∀ p, p ∈ all ↔ ProductsService.findOne (product_id p) st = (st, Ok p).
Proof.
  eexists. split; [reflexivity|]. split; [|split].
  - rewrite <- list_fmap_compose. apply NoDup_fst_map_to_list.
  - by rewrite length_fmap, length_map_to_list.
  - intros p. rewrite list_elem_of_fmap. unfold ProductsService.findOne. split.
    + intros ([k r] & -> & Hin). apply elem_of_map_to_list in Hin. simpl.
      by rewrite Hin.
    + destruct (products st !! product_id p) as [r|] eqn:E; [|done].
      intros [= Hp]. exists (product_id p, r). split; [done|].
      by apply elem_of_map_to_list.
Qed.

(** ** What a batch writes *)

Section BatchEffect.

Lemma executeUpdate_lookup cond set st k :
  products (ProductsService.executeUpdate cond set st).1 !! k
  = (fun r => if cond k r then set r else r) <$> products st !! k.
Proof.
  unfold ProductsService.executeUpdate. simpl. rewrite map_lookup_imap.
  by destruct (products st !! k).
Qed.

Lemma executeUpdate_affected_existing productIds st :
  (ProductsService.executeUpdate
     (fun k _ => bool_decide (k ∈ ProductsService.existingIds productIds st))
     (set_updatedAt (clock st)) st).2
  = Ok (size (ProductsService.existingIds productIds st)).
Proof.
  unfold ProductsService.executeUpdate. simpl. f_equal.
  change (size (ProductsService.existingIds productIds st))
    with (size (dom (ProductsService.existingProducts productIds st)) : nat).
  rewrite size_dom. unfold ProductsService.existingProducts. f_equal.
  apply map_filter_ext. intros k r E. simpl.
  rewrite bool_decide_eq_true, elem_of_existingIds. split.
  - by intros [Hin _].
  - intros Hin. split; [done | by eexists].
Qed.

Lemma existingIds_list productIds st :
  ProductsService.existingIds productIds st
  = list_to_set (filter (fun id => is_Some (products st !! id)) productIds).
Proof.
  apply set_eq. intros k.
  rewrite elem_of_existingIds, elem_of_list_to_set, list_elem_of_filter.
  split; intros [? ?]; by split.
Qed.

Lemma length_filter_split (l : list Z) st :
  (length (filter (fun id => is_Some (products st !! id)) l)
   + length (filter (fun id => products st !! id = None) l))%nat = length l.
Proof.
  induction l as [|a l IH]; [done|].
  destruct (products st !! a) as [r|] eqn:E.
  - rewrite filter_cons_True by (by rewrite E).
    rewrite (filter_cons_False (fun id => products st !! id = None)) by (by rewrite E).
    simpl. lia.
  - rewrite filter_cons_False by (rewrite E; by intros [? ?]).
    rewrite (filter_cons_True (fun id => products st !! id = None)) by done.
    simpl. lia.
Qed.

End BatchEffect.

(** X20: [processProductBatch] stamps [updatedAt] with the current date on
    exactly the existing products that were asked for and changes no other
    column, row or table, so no stock moves; [processed] is the number of
    distinct requested ids that exist; and when no id is requested twice,
    [processed + failed] is the number of ids requested. *)
Theorem processProductBatch_effect (productIds : list Z) (st : Store) :
  ∃ result,
    ProductsService.processProductBatch productIds st
      = ((ProductsService.processProductBatch productIds st).1, Ok result) ∧
    ProductsInterface.processed result
      = size (ProductsService.existingIds productIds st) ∧
    (∀ k, products (ProductsService.processProductBatch productIds st).1 !! k
          = (fun r => if bool_decide (k ∈ productIds)
                      then set_updatedAt (clock st) r else r) <$> products st !! k) ∧
    (∀ k, stockOf (ProductsService.processProductBatch productIds st).1 k = stockOf st k) ∧
    sameButProducts st (ProductsService.processProductBatch productIds st).1 ∧
    (NoDup productIds →
     (ProductsInterface.processed result + ProductsInterface.failed result)%nat
     = length productIds).
Proof.
  assert (Hstock : ∀ st' : Store,
             (∀ k, products st' !! k
                   = (fun r => if bool_decide (k ∈ productIds)
                               then set_updatedAt (clock st) r else r) <$> products st !! k) →
             ∀ k, stockOf st' k = stockOf st k).
  { intros st' H k. unfold stockOf. rewrite H.
    destruct (products st !! k) as [r|]; simpl; [|done].
    by destruct (bool_decide _). }
  assert (Hcount : NoDup productIds →
             (size (ProductsService.existingIds productIds st)
              + length (ProductsService.notFound <$> ProductsService.missingIds productIds st))%nat
             = length productIds).
  { intros Hnd. rewrite existingIds_list, size_list_to_set by (by apply NoDup_filter).
    rewrite length_fmap, missingIds_eq. apply length_filter_split. }
  destruct productIds as [|id0 rest] eqn:Hids.
  { eexists. split; [reflexivity|]. simpl.
    split; [by rewrite existingIds_list|]. split.
    - intros k. destruct (products st !! k); [|done].
      first [ done
            | by rewrite fmap_Some_2, bool_decide_eq_false_2 by (apply not_elem_of_nil)
            | cbn [fmap option_fmap option_map];
              by rewrite bool_decide_eq_false_2 by (apply not_elem_of_nil) ].
    - split; [done|]. split; [apply sameButProducts_refl | done]. }
  assert (Hlen : Nat.eqb (length (id0 :: rest)) 0 = false) by done.
  rewrite <- Hids in *. clear Hids.
  unfold ProductsService.processProductBatch. rewrite Hlen.
  cbv beta iota. unfold bind.
  destruct (bool_decide (0 < size (ProductsService.existingIds productIds st))%nat) eqn:Hsize.
  - pose proof (executeUpdate_affected_existing productIds st) as Haff.
    assert (Hrows : ∀ k,
              products (ProductsService.executeUpdate
                          (fun k _ => bool_decide
                                        (k ∈ ProductsService.existingIds productIds st))
                          (set_updatedAt (clock st)) st).1 !! k
              = (fun r => if bool_decide (k ∈ productIds)
                          then set_updatedAt (clock st) r else r) <$> products st !! k).
    { intros k. rewrite executeUpdate_lookup.
      destruct (products st !! k) as [r|] eqn:E; simpl; [|done]. f_equal.
      destruct (decide (k ∈ productIds)) as [Hin|Hin].
      - rewrite !bool_decide_eq_true_2; [done | done |].
        apply elem_of_existingIds. split; [done | by eexists].
      - rewrite !bool_decide_eq_false_2; [done | done |].
        rewrite elem_of_existingIds. by intros [? _]. }
    destruct (ProductsService.executeUpdate _ _ st) as [st' [n|e]] eqn:Hu;
      simpl in Haff; [|done].
    injection Haff as ->. simpl in Hrows.
    eexists. split; [reflexivity|]. simpl.
    split; [done|]. split; [exact Hrows|]. split; [by apply Hstock|].
    split; [|exact Hcount].
    replace st' with (ProductsService.executeUpdate
                        (fun k _ => bool_decide
                                      (k ∈ ProductsService.existingIds productIds st))
                        (set_updatedAt (clock st)) st).1 by (by rewrite Hu).
    apply sameButProducts_set_products.
  - apply bool_decide_eq_false in Hsize.
    assert (Hzero : size (ProductsService.existingIds productIds st) = 0%nat) by lia.
    assert (Hrows : ∀ k, products st !! k
              = (fun r => if bool_decide (k ∈ productIds)
                          then set_updatedAt (clock st) r else r) <$> products st !! k).
    { intros k. destruct (products st !! k) as [r|] eqn:E; simpl; [|done].
      rewrite bool_decide_eq_false_2; [done|]. intros Hin.
      apply size_empty_inv in Hzero.
      assert (Hk : k ∈ ProductsService.existingIds productIds st).
      { apply elem_of_existingIds. split; [done | by eexists]. }
      rewrite (leibniz_equiv _ _ Hzero) in Hk. by apply not_elem_of_empty in Hk. }
    eexists. split; [reflexivity|]. simpl.
    split; [done|]. split; [exact Hrows|]. split; [by apply Hstock|].
    split; [apply sameButProducts_refl|]. intros Hnd. rewrite <- (Hcount Hnd). lia.
Qed.

Lemma processProductBatch_effect_witness :
  row_updatedAt <$> products (ProductsService.processProductBatch [2; 9] demoStore).1 !! 2
    = Some 1000 ∧
  row_updatedAt <$> products (ProductsService.processProductBatch [2; 9] demoStore).1 !! 1
    = Some 20 ∧
  stockOf (ProductsService.processProductBatch [2; 9] demoStore).1 2 = Some 5.
Proof.
  destruct (processProductBatch_effect [2; 9] demoStore)
    as (result & _ & _ & Hrows & Hstock & _).
  split; [by rewrite (Hrows 2)|]. split; [by rewrite (Hrows 1) | exact (Hstock 2)].
Defined.

(** ** The projection on graphs that are not fully loaded *)

Section ProjectionOutcomes.

Lemma mapItems_cases items :
  (∃ ds, OrderProjection.mapItems items = Ok ds ∧ length ds = length items ∧
         Forall (fun it => is_Some (item_product it)) items) ∨
  (OrderProjection.mapItems items = Err TypeError ∧
   ¬ Forall (fun it => is_Some (item_product it)) items).
Proof.
  induction items as [|it rest IH]; [left; by exists []|].
  simpl. unfold OrderProjection.mapItem.
  destruct (item_product it) as [p|] eqn:Ep.
  - destruct IH as [(ds & -> & Hlen & Hall)|[-> Hnot]].
    + left. eexists. split; [done|]. split; [simpl; by rewrite Hlen|].
      constructor; [by rewrite Ep | done].
    + right. split; [done|]. intros Hall. apply Hnot. by inversion Hall.
  - right. split; [done|]. intros Hall. inversion Hall as [|? ? [p Hp] _]; subst.
    by rewrite Ep in Hp.
Qed.

Lemma mapToOrderFullDetails_cases order :
  (∃ response, OrderProjection.mapToOrderFullDetails order = Ok response ∧
               length (response_items response) = length (order_items order) ∧
               response_total response = order_total order ∧
               response_status response = order_status order ∧
               OrderProjection.fullyLoaded order) ∨
  (OrderProjection.mapToOrderFullDetails order = Err TypeError ∧
   ¬ OrderProjection.fullyLoaded order).
Proof.
  unfold OrderProjection.mapToOrderFullDetails, OrderProjection.fullyLoaded.
  destruct (order_user order) as [u|].
  - destruct (mapItems_cases (order_items order)) as [(ds & -> & Hlen & Hall)|[-> Hnot]].
    + left. eexists. split; [done|]. simpl.
      split; [done|]. split; [done|]. split; [done|]. split; [by eexists | done].
    + right. split; [done|]. by intros [_ Hall].
  - right. split; [done|]. by intros [[u Hu] _].
Qed.

End ProjectionOutcomes.

(** X21: the projection returns a response exactly when the order's user and
    the product of each of its items are loaded, and then with one entry per
    item and the order's total and status; on any other order it throws a
    [TypeError], never another error. *)
Theorem mapToOrderFullDetails_outcomes (order : Order) :
  (isOk (OrderProjection.mapToOrderFullDetails order) = true
   ↔ OrderProjection.fullyLoaded order) ∧
  (∀ e, OrderProjection.mapToOrderFullDetails order = Err e → e = TypeError) ∧
  (∀ response, OrderProjection.mapToOrderFullDetails order = Ok response →
               length (response_items response) = length (order_items order) ∧
               response_total response = order_total order ∧
               response_status response = order_status order).
Proof.
  destruct (mapToOrderFullDetails_cases order)
    as [(response & -> & Hlen & Ht & Hs & Hloaded)|[-> Hnot]].
  - split; [by split|]. split; [done|]. by intros ? [= <-].
  - split; [by split|]. split; [by intros ? [= <-] | done].
Qed.

(** X22: [getOrderWithFullDetails] never writes; it throws "Order #id not
    found" when there is no order row, a [TypeError] when the order's user
    row or the product row of one of its items is missing, and otherwise
    returns the response of that order, with its total, its status and one
    entry per item row of the order. *)
Theorem getOrderWithFullDetails_outcomes (st : Store) (id : Z) :
  let out := OrderProjection.getOrderWithFullDetails id st in
  out.1 = st ∧
  (orders st !! id = None →
   out.2 = Err (NotFoundException ("Order #" +:+ pretty id +:+ " not found"))) ∧
  (∀ r, orders st !! id = Some r →
        let rows := filter (fun row => irow_orderId row = id) (orderItems st) in
        (is_Some (users st !! orow_userId r) ∧
         Forall (fun row => is_Some (products st !! irow_productId row)) rows →
         ∃ response, out.2 = Ok response ∧
                     response_total response = orow_total r ∧
                     response_status response = orow_status r ∧
                     length (response_items response) = length rows) ∧
        (¬ (is_Some (users st !! orow_userId r) ∧
            Forall (fun row => is_Some (products st !! irow_productId row)) rows) →
         out.2 = Err TypeError)).
Proof.
  simpl. unfold OrderProjection.getOrderWithFullDetails.
  destruct (orders st !! id) as [r|] eqn:E; simpl.
  2:{ split; [done|]. split; [done|]. by intros r [=]. }
  split; [done|]. split; [done|]. intros r' [= <-].
  assert (Hloaded : OrderProjection.fullyLoaded (OrdersService.loadOrder true st id r)
                    ↔ is_Some (users st !! orow_userId r) ∧
                      Forall (fun row => is_Some (products st !! irow_productId row))
                             (filter (fun row => irow_orderId row = id) (orderItems st))).
  { unfold OrderProjection.fullyLoaded. simpl. rewrite Forall_fmap.
    split; intros [Hu Hall]; (split; [done|]);
      (eapply Forall_impl; [exact Hall|]); simpl; intros row;
      unfold OrdersService.loadProduct; rewrite fmap_is_Some; done. }
  destruct (mapToOrderFullDetails_cases (OrdersService.loadOrder true st id r))
    as [(response & -> & Hlen & Ht & Hs & Hfull)|[-> Hnot]].
  - split.
    + intros _. exists response. repeat split; try done.
      rewrite Hlen. simpl. by rewrite length_fmap.
    + intros Hn. exfalso. by apply Hn, Hloaded.
  - split; [|done]. intros H. exfalso. by apply Hnot, Hloaded.
Qed.

Lemma getOrderWithFullDetails_outcomes_witness :
  (OrderProjection.getOrderWithFullDetails 1 penMissingStore).2 = Err TypeError ∧
  (OrderProjection.getOrderWithFullDetails 6 orderStore).2
    = Err (NotFoundException "Order #6 not found").
Proof.
  destruct (getOrderWithFullDetails_outcomes penMissingStore 1) as (_ & _ & Hfound).
  destruct (Hfound (mkOrderRow 1 PENDING 8.5%float 1000) eq_refl) as [_ Hdangling].
  destruct (getOrderWithFullDetails_outcomes orderStore 6) as (_ & Hmissing & _).
  split; [|by apply Hmissing].
  apply Hdangling. intros [_ Hall].
  apply Forall_forall with (x := mkOrderItemRow 2 1 1 1 2.5%float) in Hall.
  - by destruct Hall.
  - vm_compute. right. left.
Defined.

Lemma mapToOrderFullDetails_outcomes_witness :
  OrderProjection.mapToOrderFullDetails
    (OrdersService.loadOrder true penMissingStore 1 (mkOrderRow 1 PENDING 8.5%float 1000))
  = Err TypeError.
Proof.
  destruct (mapToOrderFullDetails_outcomes
              (OrdersService.loadOrder true penMissingStore 1
                 (mkOrderRow 1 PENDING 8.5%float 1000))) as (_ & Herr & _).
  destruct (OrderProjection.mapToOrderFullDetails _) as [response|e] eqn:Hmap.
  - vm_compute in Hmap. discriminate Hmap.
  - by rewrite (Herr e eq_refl).
Defined.

Lemma products_findAll_witness :
  ∃ all, ProductsService.findAll demoStore = (demoStore, Ok all) ∧
         length all = 2%nat ∧
         mkProduct 2 "Ink" 3%float 5 20 None None ∈ all.
Proof.
  destruct (products_findAll demoStore) as (all & Hall & _ & Hlen & Hin).
  exists all. split; [exact Hall|]. split; [by rewrite Hlen|].
  by apply Hin.
Defined.

(** ** The category tree *)

Section CategoryTree.

Lemma buildCategoryTree_eq id name parentId parent children :
  ProductsService.buildCategoryTree (mkCategoryEntity id name parentId parent children) =
  match buildParent parentId parent with
  | Err e => Err e
  | Ok parentTree =>
    match buildChildren children with
    | Ok childTrees => Ok (mkCategoryTree id name parentTree childTrees)
    | Err e => Err e
    end
  end.
Proof.
  cbn [ProductsService.buildCategoryTree]. fold (buildParent parentId parent).
  destruct (buildParent parentId parent) as [parentTree|e]; [|done].
  assert (Hmap : ∀ l,
             (fix mapChildren (l : list CategoryEntity) : Result (list CategoryTree) :=
                match l with
                | [] => Ok []
                | child :: rest =>
                  match ProductsService.buildCategoryTree child with
                  | Ok t => match mapChildren rest with
                            | Ok ts => Ok (t :: ts)
                            | Err e => Err e
                            end
                  | Err e => Err e
                  end
                end) l = buildChildren l).
  { induction l as [|c l IH]; [done|]. simpl.
    destruct (ProductsService.buildCategoryTree c); [|done]. by rewrite IH. }
  by rewrite Hmap.
Qed.

Lemma buildCategoryTree_bare k r :
  ProductsService.buildCategoryTree (ProductsService.bareCategory k r) =
  if truthyId (crow_parentId r)
  then Err TypeError
  else Ok (mkCategoryTree k (crow_name r) None []).
Proof.
  unfold ProductsService.bareCategory. rewrite buildCategoryTree_eq.
  unfold buildParent. by destruct (truthyId (crow_parentId r)).
Qed.

(** The parent as [findCategory] loads it gives a tree or a [TypeError]. *)
Lemma buildParent_loaded (table : gmap Z CategoryRow) parentId :
  buildParent parentId (parentId ≫= fun p => ProductsService.bareCategory p <$> table !! p) =
  if truthyId parentId
  then match parentId ≫= fun p => table !! p ≫= fun rp => Some (p, rp) with
       | Some (p, rp) => if truthyId (crow_parentId rp)
                         then Err TypeError
                         else Ok (Some (mkCategoryTree p (crow_name rp) None []))
       | None => Err TypeError
       end
  else Ok None.
Proof.
  unfold buildParent. destruct (truthyId parentId); [|done].
  destruct parentId as [p|]; [|done]. simpl.
  destruct (table !! p) as [rp|]; [|done]. simpl.
  by destruct (truthyId (crow_parentId rp)).
Qed.

(** The rows loaded as children of [id]: none exactly when no row names
    [id] as its parent. *)
Lemma children_nil_iff (table : gmap Z CategoryRow) id :
  map_to_list (filter (fun kr : Z * CategoryRow => crow_parentId kr.2 = Some id) table) = []
  ↔ ¬ ∃ k rk, table !! k = Some rk ∧ crow_parentId rk = Some id.
Proof.
  rewrite map_to_list_empty_iff. split.
  - intros Hempty (k & rk & Hk & Hp).
    assert (H : filter (fun kr : Z * CategoryRow => crow_parentId kr.2 = Some id) table !! k
                = Some rk) by (by apply map_lookup_filter_Some).
    by rewrite Hempty, lookup_empty in H.
  - intros Hnone. apply map_eq. intros k. rewrite lookup_empty.
    apply map_lookup_filter_None. right. intros rk Hk Hp. apply Hnone. by exists k, rk.
Qed.

End CategoryTree.

(** X23: [getCategoryTree] of an existing category with a non-zero id
    throws a [TypeError] as soon as the category has a child (the child's
    own parent is not loaded) or its parent has a parent (which is not
    loaded either) or its parent row is missing; it returns a tree only for
    a category without children whose parent, if any, is a root, and that
    tree has no children. *)
Theorem getCategoryTree_outcomes (table : gmap Z CategoryRow) (id : Z) (r : CategoryRow)
        (Hrow : table !! id = Some r) (Hid : id ≠ 0) :
  let out := ProductsService.getCategoryTree id table in
  let hasChild := ∃ k rk, table !! k = Some rk ∧ crow_parentId rk = Some id in
  (hasChild → out = Err TypeError) ∧
  (¬ hasChild → truthyId (crow_parentId r) = false →
   out = Ok (mkCategoryTree id (crow_name r) None [])) ∧
  (¬ hasChild → ∀ p, crow_parentId r = Some p → p ≠ 0 →
   out = match table !! p with
         | Some rp => if truthyId (crow_parentId rp)
                      then Err TypeError
                      else Ok (mkCategoryTree id (crow_name r)
                                 (Some (mkCategoryTree p (crow_name rp) None [])) [])
         | None => Err TypeError
         end) ∧
  (∀ t, out = Ok t → tree_children t = []).
Proof.
  simpl. unfold ProductsService.getCategoryTree, ProductsService.findCategory.
  rewrite Hrow, buildCategoryTree_eq, buildParent_loaded.
  set (rows := map_to_list (filter (fun kr : Z * CategoryRow =>
                                      crow_parentId kr.2 = Some id) table)).
  assert (Htruthy : truthyId (Some id) = true).
  { simpl. by apply negb_true_iff, Z.eqb_neq. }
  assert (Hchildren : buildChildren ((fun kr => ProductsService.bareCategory kr.1 kr.2) <$> rows)
                      = if decide (rows = []) then Ok [] else Err TypeError).
  { destruct rows as [|[k rk] rest] eqn:Hrows; [done|].
    rewrite decide_False by done.
    assert (Hin : (k, rk) ∈ rows) by (rewrite Hrows; by left).
    apply elem_of_map_to_list, map_lookup_filter_Some in Hin as [_ Hp]. simpl in Hp.
    rewrite fmap_cons. cbn [buildChildren fst snd].
    by rewrite buildCategoryTree_bare, Hp, Htruthy. }
  rewrite Hchildren.
  assert (Hnil : rows = [] ↔ ¬ ∃ k rk, table !! k = Some rk ∧ crow_parentId rk = Some id)
    by apply children_nil_iff.
  split; [|split; [|split]].
  - intros Hex. rewrite decide_False by (intros H; by apply Hnil in H).
    destruct (truthyId (crow_parentId r)); [|done].
    destruct (crow_parentId r ≫= _) as [[p rp]|]; [|done].
    by destruct (truthyId (crow_parentId rp)).
  - intros Hnone Hp. rewrite decide_True by (by apply Hnil). by rewrite Hp.
  - intros Hnone p Hp Hp0. rewrite decide_True by (by apply Hnil).
    rewrite Hp. simpl.
    assert (Hpt : negb (p =? 0) = true) by (by apply negb_true_iff, Z.eqb_neq).
    rewrite Hpt. destruct (table !! p) as [rp|]; simpl; [|done].
    by destruct (truthyId (crow_parentId rp)).
  - intros t. destruct (decide (rows = [])).
    + destruct (truthyId (crow_parentId r)); [|by intros [= <-]].
      destruct (crow_parentId r ≫= _) as [[p rp]|]; [|done].
      destruct (truthyId (crow_parentId rp)); [done | by intros [= <-]].
    + destruct (truthyId (crow_parentId r)); [|done].
      destruct (crow_parentId r ≫= _) as [[p rp]|]; [|done].
      by destruct (truthyId (crow_parentId rp)).
Qed.

(** In [categoryTable] the root and "Tools" have children and "Hammers" has
    a grandparent: only the tree of "Paint" can be built. *)
Lemma getCategoryTree_outcomes_witness :
  ProductsService.getCategoryTree 1 categoryTable = Err TypeError ∧
  ProductsService.getCategoryTree 2 categoryTable = Err TypeError ∧
  ProductsService.getCategoryTree 3 categoryTable = Err TypeError ∧
  ProductsService.getCategoryTree 4 categoryTable
    = Ok (mkCategoryTree 4 "Paint" (Some (mkCategoryTree 1 "Root" None [])) []) ∧
  ProductsService.getCategoryTree 5 categoryTable
    = Err (NotFoundException "Category #5 not found").
Proof.
  destruct (getCategoryTree_outcomes categoryTable 1 (mkCategoryRow "Root" None) eq_refl)
    as (Hchild & _); [lia|].
  split; [|by vm_compute].
  apply Hchild. by exists 2, (mkCategoryRow "Tools" (Some 1)).
Defined.

(** ** When creation succeeds *)

Section CreationSuccess.

Lemma requestedOf_nonneg pid dtos :
  Forall (fun d => 0 <= dto_quantity d) dtos → 0 <= requestedOf pid dtos.
Proof.
  induction 1 as [|d rest Hd _ IH]; simpl; [lia|].
  destruct (bool_decide _); lia.
Qed.

(** The item loop reaches its end when every requested product exists and
    has in stock what the whole request asks of it. *)
Lemma createItems_succeeds oid dtos : ∀ total st,
  Forall (fun d => 0 <= dto_quantity d) dtos →
  (∀ d, d ∈ dtos → ∃ r, products st !! dto_productId d = Some r ∧
                        requestedOf (dto_productId d) dtos <= row_stock r) →
  ∃ st' total', OrdersService.createItems oid dtos total st = (st', Ok total').
Proof.
  induction dtos as [|d rest IH]; intros total st Hq Hstock; [by eexists _, _|].
  inversion Hq as [|? ? Hd Hrest]; subst.
  destruct (Hstock d) as (r & E & Hr); [by left|].
  simpl in Hr. rewrite bool_decide_eq_true_2 in Hr by done.
  pose proof (requestedOf_nonneg (dto_productId d) rest Hrest) as Hnn.
  simpl. unfold bind at 1. unfold ProductsService.findOne at 1. rewrite E. simpl.
  destruct (Z.ltb_spec (row_stock r) (dto_quantity d)) as [Hlt|_]; [lia|].
  unfold bind at 1. simpl. unfold bind at 1. rewrite decrementStock_eq. simpl.
  rewrite E. destruct (Z.leb_spec (dto_quantity d) (row_stock r)) as [_|Hlt]; [|lia].
  apply IH; [done|]. intros d' Hin. simpl.
  destruct (Hstock d') as (r' & E' & Hr'); [by right|]. simpl in Hr'.
  destruct (decide (dto_productId d = dto_productId d')) as [Heq|Hne].
  - rewrite Heq, lookup_insert_eq. eexists. split; [done|]. simpl.
    rewrite Heq in E. rewrite E in E'. injection E' as <-.
    rewrite bool_decide_eq_true_2 in Hr' by done. lia.
  - rewrite lookup_insert_ne by done. exists r'. split; [done|].
    rewrite bool_decide_eq_false_2 in Hr' by done. lia.
Qed.

Lemma Forall2_exists_r {A B} (R : A → B → Prop) (Q : B → Prop) l k :
  Forall2 R l k → (∀ x y, R x y → Q y) → ∀ y, y ∈ k → Q y.
Proof.
  intros H HQ. induction H as [|x y l k Hxy _ IH]; intros z Hz.
  - by apply elem_of_nil in Hz.
  - apply elem_of_cons in Hz as [->|Hz]; [by apply (HQ x) | by apply IH].
Qed.

End CreationSuccess.

(** X24: for a known user, a store without negative stock and a request
    without negative quantities, [create] returns an order exactly when
    every requested product exists and has in stock the total the request
    asks of it, the lines for one product added up. *)
Theorem create_succeeds_iff (st : Store) (dto : CreateOrderDto) (u : User)
        (Huser : users st !! dto_userId dto = Some u)
        (Hinv : stockInv st)
        (Hquantities : Forall (fun d => 0 <= dto_quantity d) (dto_items dto)) :
  isOk (OrdersService.create dto st).2 = true ↔
  ∀ d, d ∈ dto_items dto →
       ∃ r, products st !! dto_productId d = Some r ∧
            requestedOf (dto_productId d) (dto_items dto) <= row_stock r.
Proof.
  split.
  - destruct (OrdersService.create dto st) as [st' [o|e]] eqn:Hc; [|done]. intros _.
    apply create_Ok_inv in Hc as (u' & st0 & st1 & total & _ & -> & Hrun & _ & _).
    pose proof (createItems_products _ _ _ _ _ _ Hrun) as Hproducts.
    pose proof (createItems_ok _ _ _ _ _ _ Hrun) as (rows & _ & _ & _ & _ & Hrows & _).
    pose proof (createItems_stockInv (nextOrderId st) (dto_items dto) 0%float
                  (OrdersService.saveNew (user_id u') PENDING st).1 Hinv) as Hinv1.
    rewrite Hrun in Hinv1. simpl in Hinv1, Hproducts.
    assert (Hex : ∀ d, d ∈ dto_items dto → is_Some (products st !! dto_productId d)).
    { apply (Forall2_exists_r _ _ _ _ Hrows). intros row d (_ & _ & _ & H4).
      simpl in H4. destruct (products st !! dto_productId d); [by eexists | done]. }
    intros d Hin. destruct (Hex d Hin) as [r E]. exists r. split; [done|].
    specialize (Hproducts (dto_productId d)). rewrite E in Hproducts. simpl in Hproducts.
    specialize (Hinv1 _ _ Hproducts). simpl in Hinv1. lia.
  - intros Hstock.
    destruct (createItems_succeeds (nextOrderId st) (dto_items dto) 0%float
                (OrdersService.saveNew (user_id u) PENDING st).1 Hquantities Hstock)
      as (st1 & total & Hrun).
    unfold OrdersService.create, bind, UsersService.findOne. rewrite Huser.
    cbn [fst snd].
    change (OrdersService.saveNew (user_id u) PENDING st)
      with ((OrdersService.saveNew (user_id u) PENDING st).1,
            Ok (mkOrder (nextOrderId st) (user_id u) PENDING 0%float (clock st) None [])).
    cbv beta iota. cbn [order_id]. rewrite Hrun. cbv beta iota.
    unfold OrdersService.findOne. simpl. by rewrite lookup_insert_eq.
Qed.

(** Against [demoStore], where there are five "Ink": three and two are
    granted, three and three are not. *)
Lemma create_succeeds_iff_witness :
  isOk (OrdersService.create
          (mkCreateOrderDto 1 [mkOrderItemDto 2 3; mkOrderItemDto 2 2]) demoStore).2 = true ∧
  isOk (OrdersService.create repeatedDto demoStore).2 = false.
Proof.
  assert (Hinv : stockInv demoStore) by (apply (bool_decide_unpack _); by vm_compute).
  split; [|reflexivity].
  apply (create_succeeds_iff demoStore
           (mkCreateOrderDto 1 [mkOrderItemDto 2 3; mkOrderItemDto 2 2])
           demoUser eq_refl Hinv).
  - repeat constructor; simpl; lia.
  - intros d Hin. exists (mkProductRow "Ink" 3%float 5 20 None).
    apply elem_of_cons in Hin as [->|Hin]; [split; [reflexivity | simpl; lia]|].
    apply elem_of_cons in Hin as [->|Hin]; [split; [reflexivity | simpl; lia]|].
    by apply elem_of_nil in Hin.
Defined.

(** ** Payment and the current status *)

Section PaymentStatus.

Variable gateway : nat -> Z -> float -> GatewayOutcome.

(** The loop reads the id and the total of its order and nothing else. *)
Lemma retryLoop_same_calls o1 o2 fuel : ∀ attempt lastError trace st1 st2,
  order_id o1 = order_id o2 → order_total o1 = order_total o2 →
  let out1 := OrdersService.retryLoop gateway o1 fuel attempt lastError trace st1 in
  let out2 := OrdersService.retryLoop gateway o2 fuel attempt lastError trace st2 in
  out1.1.2 = out2.1.2 ∧ out1.2 = out2.2 ∧
  ((isOk out1.2 = false ∧ out1.1.1 = st1 ∧ out2.1.1 = st2) ∨
   (isOk out1.2 = true ∧
    out1.1.1 = (OrdersService.save (OrdersService.withStatus CONFIRMED o1) st1).1 ∧
    out2.1.1 = (OrdersService.save (OrdersService.withStatus CONFIRMED o2) st2).1)).
Proof.
  intros attempt lastError trace st1 st2 Hid Htotal. revert attempt lastError trace.
  induction fuel as [|fuel IH]; intros attempt lastError trace;
    cbv zeta; cbn [OrdersService.retryLoop].
  - split; [done|]. split; [done|]. by left.
  - rewrite <- Hid, <- Htotal.
    destruct (gateway attempt (order_id o1) (order_total o1)) as [r|e].
    + destruct (success r).
      * cbn [fst snd isOk]. split; [done|]. split; [done|]. by right.
      * exact (IH (S attempt) lastError
                  (trace ++ [Charge (order_id o1) (order_total o1)])).
    + exact (IH (S attempt) (Some e)
                ((trace ++ [Charge (order_id o1) (order_total o1)])
                   ++ [Sleep (100 * 2 ^ Z.of_nat attempt)])).
Qed.

End PaymentStatus.

(** X25: [processPayment] does not look at the status of the order: after
    [updateStatus] has given an order any status, it makes the same calls
    and waits and returns or throws the same as before, and when it returns
    it leaves the store it would have left before, the order [CONFIRMED];
    so a [CANCELLED] order whose payment goes through becomes [CONFIRMED]. *)
Theorem processPayment_ignores_status
        (gateway : nat -> Z -> float -> GatewayOutcome) (st : Store) (id : Z)
        (r : OrderRow) (status : OrderStatus)
        (Horder : orders st !! id = Some r) :
  let before := OrdersService.processPayment gateway id st in
  let after := OrdersService.processPayment gateway id
                 (OrdersService.updateStatus id status st).1 in
  after.1.2 = before.1.2 ∧
  after.2 = before.2 ∧
  (isOk before.2 = true →
   after.1.1 = before.1.1 ∧ statusOf after.1.1 id = Some CONFIRMED).
Proof.
  cbv zeta.
  set (o1 := OrdersService.loadOrder false st id r).
  assert (Hst2 : (OrdersService.updateStatus id status st).1
                 = (OrdersService.save (OrdersService.withStatus status o1) st).1).
  { unfold OrdersService.updateStatus, bind. by rewrite (findOne_Some _ _ _ Horder). }
  rewrite Hst2.
  set (st2 := (OrdersService.save (OrdersService.withStatus status o1) st).1).
  assert (E2 : orders st2 !! id
               = Some (OrdersService.rowOf (OrdersService.withStatus status o1))).
  { unfold st2. simpl. by rewrite lookup_insert_eq. }
  unfold OrdersService.processPayment.
  rewrite (findOne_Some _ _ _ Horder), (findOne_Some _ _ _ E2). fold o1.
  destruct (retryLoop_same_calls gateway
              (OrdersService.loadOrder false st2 id
                 (OrdersService.rowOf (OrdersService.withStatus status o1)))
              o1 OrdersService.maxRetries 0 None [] st2 st eq_refl eq_refl)
    as (Htrace & Hres & Hstores).
  split; [exact Htrace|]. split; [exact Hres|].
  intros Hok. destruct Hstores as [(Hfail & _)|(_ & H2 & H1)].
  - rewrite Hres in Hfail. by rewrite Hok in Hfail.
  - rewrite H1, H2. unfold st2. simpl. unfold set_orders, statusOf. simpl.
    rewrite insert_insert_eq. split; [done|]. by rewrite lookup_insert_eq.
Qed.

(** The cancelled order 3 of the scenario is paid and becomes confirmed. *)
Lemma processPayment_ignores_status_witness :
  statusOf orderStore 3 = Some CANCELLED ∧
  statusOf (OrdersService.processPayment alwaysPays 3 orderStore).1.1 3 = Some CONFIRMED ∧
  (OrdersService.processPayment alwaysPays 1
     (OrdersService.updateStatus 1 CANCELLED orderStore).1).2
  = (OrdersService.processPayment alwaysPays 1 orderStore).2.
Proof.
  destruct (processPayment_ignores_status alwaysPays orderStore 1
              (mkOrderRow 1 PENDING 6%float 100) CANCELLED eq_refl)
    as (_ & Hres & _).
  split; [reflexivity|]. split; [reflexivity | exact Hres].
Defined.
